(** * ElasticSearch query engine: extraction, bulk loading, search and display

    A shallow embedding of [src/data_indexer.py] and [src/search.py].

    Python values produced by [json.loads] (and the documents built from
    them) are an inductive type; [str] is a list of code points, so that
    [len] and slicing count characters exactly as Python does; [print],
    [yield] and [helpers.bulk] are recorded as events of a trace, and
    exceptions are the left summand of the result.  The file system, the
    JSON parser, the UTF-8 decoder and the Elasticsearch client are
    collaborators outside the repository: they enter as records of
    functions ([World], [EsClient]) over which statements quantify. *)

From Stdlib Require Import String Ascii.
From Stdlib Require Import List ZArith NArith Lia Bool.
From Stdlib Require Import Sorted Permutation.
From Stdlib Require Import Floats.PrimFloat.
From Stdlib Require Import DecimalString.
From Stdlib Require Strings.Byte.
Import ListNotations.

Set Implicit Arguments.
Set Warnings "-register-all".
Local Open Scope Z_scope.

(* ================================================================== *)
(** ** Python strings and values *)

Module Py.

(** A Python [str]: a sequence of Unicode code points. *)
Definition pystr := list N.

(** A string literal of the source (ASCII). *)
Definition lit (s : string) : pystr :=
  map N_of_ascii (list_ascii_of_string s).

Fixpoint str_eqb (a b : pystr) : bool :=
  match a, b with
  | [], [] => true
  | x :: a', y :: b' => N.eqb x y && str_eqb a' b'
  | _, _ => false
  end.

(** [len(s)] as a Python integer. *)
Definition len {A} (l : list A) : Z := Z.of_nat (List.length l).

(** Values: what [json.loads] returns, which is also what documents and
    result sets are made of.  A [dict] is an association list in insertion
    order; lookups take the first binding of a key. *)
Inductive value : Type :=
| JNull
| JBool (b : bool)
| JInt (n : Z)
| JFloat (f : float)
| JStr (s : pystr)
| JArr (l : list value)
| JObj (kvs : list (pystr * value)).

(** Exceptions (subclasses of [Exception]) with the text [str(e)] gives. *)
Inductive exn : Type :=
| AttributeError (msg : pystr)
| TypeError (msg : pystr)
| KeyError (msg : pystr)
| External (cls : pystr) (msg : pystr).

(** [str(e)] *)
Definition exn_str (e : exn) : pystr :=
  match e with
  | AttributeError m | TypeError m | KeyError m | External _ m => m
  end.

Definition result (A : Type) : Type := (exn + A)%type.

(** [type(v).__name__] *)
Definition type_name (v : value) : pystr :=
  match v with
  | JNull => lit "NoneType"
  | JBool _ => lit "bool"
  | JInt _ => lit "int"
  | JFloat _ => lit "float"
  | JStr _ => lit "str"
  | JArr _ => lit "list"
  | JObj _ => lit "dict"
  end.

(** Truth value testing, as used by [or], [if] and [not]. *)
Definition truthy (v : value) : bool :=
  match v with
  | JNull => false
  | JBool b => b
  | JInt n => negb (n =? 0)
  | JFloat f => negb (PrimFloat.eqb f 0%float)
  | JStr s => match s with [] => false | _ => true end
  | JArr l => match l with [] => false | _ => true end
  | JObj kvs => match kvs with [] => false | _ => true end
  end.

Fixpoint lookup (k : pystr) (kvs : list (pystr * value)) : option value :=
  match kvs with
  | [] => None
  | (k', v) :: r => if str_eqb k k' then Some v else lookup k r
  end.

Definition no_attribute (v : value) (attr : string) : exn :=
  AttributeError (lit "'" ++ type_name v ++ lit "' object has no attribute '"
                  ++ lit attr ++ lit "'").

(** [v.get(key, default)]: only a [dict] has the method. *)
Definition get (v : value) (key : pystr) (default : value) : result value :=
  match v with
  | JObj kvs => inr (match lookup key kvs with Some x => x | None => default end)
  | _ => inl (no_attribute v "get")
  end.

(** [v[key]] for a string key. *)
Definition getitem (v : value) (key : pystr) : result value :=
  match v with
  | JObj kvs =>
      match lookup key kvs with
      | Some x => inr x
      | None => inl (KeyError (lit "'" ++ key ++ lit "'"))
      end
  | JStr _ => inl (TypeError (lit "string indices must be integers, not 'str'"))
  | JArr _ => inl (TypeError (lit "list indices must be integers or slices, not str"))
  | _ => inl (TypeError (lit "'" ++ type_name v ++ lit "' object is not subscriptable"))
  end.

Definition isinstance_dict (v : value) : bool :=
  match v with JObj _ => true | _ => false end.

(** [str(n)] for an integer. *)
Definition str_of_int (n : Z) : pystr :=
  lit (NilZero.string_of_int (Z.to_int n)).

End Py.
Import Py.


(* ================================================================== *)
(** ** Traces: [print], [yield], bulk submissions, and exceptions *)

Inductive event : Type :=
| Print (line : pystr)
| Yield (doc_id doc : value)
| Bulk (actions : list value).

(** A computation writes a trace and either raises or returns. *)
Definition M (A : Type) : Type := (list event * result A)%type.

Definition ret {A} (a : A) : M A := ([], inr a).
Definition raise {A} (e : exn) : M A := ([], inl e).
Definition lift {A} (r : result A) : M A := ([], r).

Definition bind {A B} (m : M A) (k : A -> M B) : M B :=
  match m with
  | (t, inl e) => (t, inl e)
  | (t, inr a) => let (t', r) := k a in (t ++ t', r)
  end.

(** [try: m  except Exception as e: h e] *)
Definition try_except {A} (m : M A) (h : exn -> M A) : M A :=
  match m with
  | (t, inl e) => let (t', r) := h e in (t ++ t', r)
  | (t, inr a) => (t, inr a)
  end.

Definition print (line : pystr) : M unit := ([Print line], inr tt).
Definition yield (doc_id doc : value) : M unit := ([Yield doc_id doc], inr tt).

Notation "x <- m ;; k" := (bind m (fun x => k))
  (at level 61, m at next level, right associativity).
Notation "m ;;; k" := (bind m (fun _ => k))
  (at level 61, right associativity).

(** [for x in l: body x] *)
Fixpoint for_each {A} (l : list A) (body : A -> M unit) : M unit :=
  match l with
  | [] => ret tt
  | x :: r => body x ;;; for_each r body
  end.

(** The pairs a computation yielded, the lines it printed and the batches
    it submitted, each in order. *)
Fixpoint yields (t : list event) : list (value * value) :=
  match t with
  | [] => []
  | Yield i d :: r => (i, d) :: yields r
  | _ :: r => yields r
  end.

Fixpoint prints (t : list event) : list pystr :=
  match t with
  | [] => []
  | Print s :: r => s :: prints r
  | _ :: r => prints r
  end.

Fixpoint bulks (t : list event) : list (list value) :=
  match t with
  | [] => []
  | Bulk a :: r => a :: bulks r
  | _ :: r => bulks r
  end.

(* ================================================================== *)
(** ** [pathlib.Path], as far as the extractor uses it *)

Module Pathlib.

(** A path is its sequence of components. *)
Record Path : Type := mkPath { parts : list pystr }.

Definition slash : pystr := lit "/".
Definition dot : N := 46%N.

(** [path.name]: the final component, or the empty string. *)
Definition name (p : Path) : pystr := last (parts p) [].

Fixpoint rfind_from (c : N) (s : pystr) (i best : Z) : Z :=
  match s with
  | [] => best
  | x :: r => rfind_from c r (i + 1) (if N.eqb x c then i else best)
  end.

(** [s.rfind(c)]: the highest index of [c], or [-1]. *)
Definition rfind (c : N) (s : pystr) : Z := rfind_from c s 0 (-1).

(** [path.suffix]: from the last dot of the name, unless that dot is the
    first or the last character. *)
Definition suffix (p : Path) : pystr :=
  let n := name p in
  let i := rfind dot n in
  if (0 <? i) && (i <? len n - 1) then skipn (Z.to_nat i) n else [].

(** [path.stem]: the name without its suffix. *)
Definition stem (p : Path) : pystr :=
  let n := name p in
  let i := rfind dot n in
  if (0 <? i) && (i <? len n - 1) then firstn (Z.to_nat i) n else n.

Fixpoint join (sep : pystr) (l : list pystr) : pystr :=
  match l with
  | [] => []
  | [x] => x
  | x :: r => x ++ sep ++ join sep r
  end.

(** [str(path)] *)
Definition path_str (p : Path) : pystr :=
  match parts p with
  | [] => lit "."
  | l => join slash l
  end.

(** Code point order on strings and its lexicographic lift to component
    sequences: the order [sorted] uses on paths. *)
Fixpoint str_ltb (a b : pystr) : bool :=
  match a, b with
  | _, [] => false
  | [], _ :: _ => true
  | x :: a', y :: b' => (x <? y)%N || ((x =? y)%N && str_ltb a' b')
  end.

Fixpoint parts_ltb (a b : list pystr) : bool :=
  match a, b with
  | _, [] => false
  | [], _ :: _ => true
  | x :: a', y :: b' => str_ltb x y || (str_eqb x y && parts_ltb a' b')
  end.

Definition path_ltb (p q : Path) : bool := parts_ltb (parts p) (parts q).

Fixpoint insert (x : Path) (l : list Path) : list Path :=
  match l with
  | [] => [x]
  | y :: r => if path_ltb y x then y :: insert x r else x :: y :: r
  end.

(** [sorted(l)]: ascending and stable. *)
Fixpoint sorted (l : list Path) : list Path :=
  match l with
  | [] => []
  | x :: r => insert x (sorted r)
  end.

(** [s.lower()].  Only ASCII letters are folded; no other code point
    lower-cases to a letter of [.zip] or [.json], so the comparisons the
    extractor makes are unaffected. *)
Definition lower_cp (c : N) : N :=
  if ((65 <=? c) && (c <=? 90))%N then (c + 32)%N else c.

Definition lower (s : pystr) : pystr := map lower_cp s.

(** [s.endswith(suf)] *)
Definition endswith (s suf : pystr) : bool :=
  (List.length suf <=? List.length s)%nat
  && str_eqb (skipn (List.length s - List.length suf) s) suf.

End Pathlib.
Import Pathlib.

(* ================================================================== *)
(** ** Collaborators: file system, decoder and parser *)

Definition bytes := list Byte.byte.

Record World : Type := mkWorld {
  is_dir : Path -> bool;                          (* path.is_dir() *)
  is_file : Path -> bool;                         (* path.is_file() *)
  rglob_json : Path -> list Path;                 (* path.rglob('*.json') *)
  read_file : Path -> result bytes;               (* open(p, 'rb').read() *)
  zip_namelist : Path -> result (list pystr);     (* ZipFile(path).namelist() *)
  zip_read : Path -> pystr -> result bytes;       (* zf.open(name).read() *)
  decode_utf8 : bytes -> option pystr;            (* raw.decode('utf-8') *)
  json_loads : pystr -> result value              (* json.loads(s) *)
}.

(** [raw.decode('latin-1')]: every byte is the code point of its value. *)
Definition decode_latin1 (raw : bytes) : pystr := map Byte.to_N raw.

(* ================================================================== *)
(** ** [data_indexer.iter_jsons_in_path] *)

Section Extractor.

Variable w : World.

(** [try: s = raw.decode('utf-8')  except Exception: s = raw.decode('latin-1')] *)
Definition decode (raw : bytes) : pystr :=
  match decode_utf8 w raw with
  | Some s => s
  | None => decode_latin1 raw
  end.

(** [data.get('uuid') or data.get('thread', {}).get('uuid') or fallback];
    [or] evaluates its right operand only when the left one is falsy. *)
Definition derive_id (data : value) (fallback : pystr) : result value :=
  match get data (lit "uuid") JNull with
  | inl e => inl e
  | inr u =>
      if truthy u then inr u else
      match get data (lit "thread") (JObj []) with
      | inl e => inl e
      | inr t =>
          match get t (lit "uuid") JNull with
          | inl e => inl e
          | inr tu => if truthy tu then inr tu else inr (JStr fallback)
          end
      end
  end.

(** The optional fields, in the order of the document literal. *)
Definition optional_fields : list string :=
  ["title"; "text"; "author"; "published"; "language"; "sentiment";
   "categories"; "url"]%string.

Fixpoint project (data : value) (fields : list string)
  : result (list (pystr * value)) :=
  match fields with
  | [] => inr []
  | f :: r =>
      match get data (lit f) JNull with
      | inl e => inl e
      | inr v =>
          match project data r with
          | inl e => inl e
          | inr kvs => inr ((lit f, v) :: kvs)
          end
      end
  end.

(** [doc = {'uuid': doc_id, 'title': data.get('title'), ...}] *)
Definition make_doc (data doc_id : value) : result value :=
  match project data optional_fields with
  | inl e => inl e
  | inr kvs => inr (JObj ((lit "uuid", doc_id) :: kvs))
  end.

(** The body of the [try] block, which the three branches share word for
    word except for the way the bytes are read and for the fallback id. *)
Definition extract_item (read : result bytes) (fallback : pystr) : M unit :=
  raw <- lift read ;;
  let s := decode raw in
  data <- lift (json_loads w s) ;;
  doc_id <- lift (derive_id data fallback) ;;
  doc <- lift (make_doc data doc_id) ;;
  yield doc_id doc.

Definition dir_fallback (path p : Path) : pystr := name path ++ slash ++ name p.
Definition zip_fallback (path : Path) (member : pystr) : pystr :=
  stem path ++ slash ++ member.
Definition file_fallback (path : Path) : pystr := name path.

Definition dir_item (path p : Path) : M unit :=
  try_except
    (extract_item (read_file w p) (dir_fallback path p))
    (fun e => print (lit "Failed reading " ++ path_str p ++ lit ": " ++ exn_str e)).

Definition zip_item (path : Path) (member : pystr) : M unit :=
  if negb (endswith (lower member) (lit ".json")) then ret tt else
  try_except
    (extract_item (zip_read w path member) (zip_fallback path member))
    (fun e => print (lit "Failed reading " ++ member ++ lit " in "
                     ++ path_str path ++ lit ": " ++ exn_str e)).

Definition file_item (path : Path) : M unit :=
  try_except
    (extract_item (read_file w path) (file_fallback path))
    (fun e => print (lit "Failed reading " ++ path_str path ++ lit ": " ++ exn_str e)).

Definition iter_jsons_in_path (path : Path) : M unit :=
  if is_dir w path then
    for_each (sorted (rglob_json w path)) (dir_item path)
  else if str_eqb (lower (suffix path)) (lit ".zip") then
    members <- lift (zip_namelist w path) ;;
    for_each members (zip_item path)
  else if is_file w path && str_eqb (lower (suffix path)) (lit ".json") then
    file_item path
  else
    print (lit "Skipping unsupported path type: " ++ path_str path).

End Extractor.

(* ================================================================== *)
(** ** The Elasticsearch client *)

Record EsClient : Type := mkEs {
  (* helpers.bulk(es_client, actions): [None] when the call returns, the
     exception when it raises; the outcome may depend on the batches
     submitted before. *)
  es_bulk : list (list value) -> list value -> option exn;
  (* es_client.search(index=..., body=..., size=...) *)
  es_search : pystr -> value -> Z -> result value
}.

(* ================================================================== *)
(** ** [data_indexer.bulk_index] *)

Section Loader.

Variable es_client : EsClient.
Variable index_name : pystr.
Variable batch_size : Z.

Definition action (doc_id doc : value) : value :=
  JObj [(lit "_index", JStr index_name); (lit "_id", doc_id); (lit "_source", doc)].

Definition helpers_bulk (hist : list (list value)) (actions : list value) : M unit :=
  ([Bulk actions],
   match es_bulk es_client hist actions with
   | Some e => inl e
   | None => inr tt
   end).

(** The loop state: the accumulator, the running total, and the batches
    submitted so far (in the source the last lives in the service). *)
Record loader_state : Type := mkState {
  st_actions : list value;
  st_total : Z;
  st_hist : list (list value)
}.

(** The [for] loop over what the iterator does: a yielded pair runs the
    loop body, anything else the iterator does on the way (a diagnostic
    it prints) happens in between. *)
Fixpoint bulk_loop (evs : list event) (st : loader_state) : M loader_state :=
  match evs with
  | [] => ret st
  | Yield doc_id doc :: r =>
      let actions := st_actions st ++ [action doc_id doc] in
      if len actions >=? batch_size then
        helpers_bulk (st_hist st) actions ;;;
        bulk_loop r (mkState [] (st_total st + len actions) (st_hist st ++ [actions]))
      else
        bulk_loop r (mkState actions (st_total st) (st_hist st))
  | ev :: r =>
      (([ev], inr tt) : M unit) ;;; bulk_loop r st
  end.

Definition bulk_index (docs_iter : M unit) : M Z :=
  let (evs, stop) := docs_iter in
  st <- bulk_loop evs (mkState [] 0 []) ;;
  _ <- lift stop ;;
  match st_actions st with
  | [] => ret (st_total st)
  | _ :: _ =>
      helpers_bulk (st_hist st) (st_actions st) ;;;
      ret (st_total st + len (st_actions st))
  end.

End Loader.

(** An iterator over a finite list of pairs that fails nowhere. *)
Definition iter_pairs (l : list (value * value)) : M unit :=
  (map (fun p => Yield (fst p) (snd p)) l, inr tt).

(* ================================================================== *)
(** ** [search.py] *)

Definition INDEX_NAME : pystr := lit "esindex-v1.0".
Definition DEFAULT_SEARCH_SIZE : Z := 10.

Definition searchable_fields : list string :=
  ["title"; "text"; "author"; "language"; "url"; "categories"]%string.

Definition query_body (query_text : pystr) : value :=
  JObj [(lit "query",
    JObj [(lit "query_string",
      JObj [(lit "query", JStr query_text);
            (lit "fields", JArr (map (fun f => JStr (lit f)) searchable_fields))])])].

Definition search_boolean_es (es_client : EsClient) (query_text index_name : pystr)
    (size : Z) : M value :=
  try_except
    (res <- lift (es_search es_client index_name (query_body query_text) size) ;;
     ret res)
    (fun e =>
       print (lit "Error querying Elasticsearch: " ++ exn_str e) ;;;
       ret JNull).

Section Presenter.

(** [repr] of a float, a list or a dict: the interpreter's business. *)
Variable repr : value -> pystr.

(** [str(v)], what an f-string field renders. *)
Definition py_str (v : value) : pystr :=
  match v with
  | JNull => lit "None"
  | JBool true => lit "True"
  | JBool false => lit "False"
  | JInt n => str_of_int n
  | JStr s => s
  | _ => repr v
  end.

Fixpoint dict_keys (kvs : list (pystr * value)) (seen : list pystr) : list value :=
  match kvs with
  | [] => []
  | (k, _) :: r =>
      if existsb (str_eqb k) seen then dict_keys r seen
      else JStr k :: dict_keys r (k :: seen)
  end.

(** The items a [for] loop gets from a value. *)
Definition iterate (v : value) : result (list value) :=
  match v with
  | JArr l => inr l
  | JStr s => inr (map (fun c => JStr [c]) s)
  | JObj kvs => inr (dict_keys kvs [])
  | _ => inl (TypeError (lit "'" ++ type_name v ++ lit "' object is not iterable"))
  end.

Definition ellipsis : pystr := lit "...".
Definition dquote : pystr := [34%N].
Definition newline : pystr := [10%N].

(** [text[:200] + ("..." if len(text) > 200 else "")].  The slice is taken
    first, so a value that cannot be sliced fails there; a list can be
    sliced but not concatenated with a string.  (Slicing a dict is a
    [TypeError] up to Python 3.11 and a [KeyError] from 3.12.) *)
Definition snippet (text : value) : result pystr :=
  match text with
  | JStr s => inr (firstn 200 s ++ (if len s >? 200 then ellipsis else []))
  | JArr _ =>
      inl (TypeError (lit "can only concatenate list (not " ++ dquote ++ lit "str"
                      ++ dquote ++ lit ") to list"))
  | JObj _ => inl (TypeError (lit "unhashable type: 'slice'"))
  | _ => inl (TypeError (lit "'" ++ type_name text ++ lit "' object is not subscriptable"))
  end.

(** [search_results['hits']['total']['value']
      if isinstance(search_results['hits']['total'], dict)
      else search_results['hits']['total']] *)
Definition total_hits (search_results : value) : result value :=
  match getitem search_results (lit "hits") with
  | inl e => inl e
  | inr hits =>
      match getitem hits (lit "total") with
      | inl e => inl e
      | inr total =>
          if isinstance_dict total then getitem total (lit "value") else inr total
      end
  end.

Definition rule (c : string) : pystr := List.concat (repeat (lit c) 70).

(** [print(f"<label>{hit['_source'].get(<field>, <placeholder>)}")] *)
Definition print_field (hit : value) (label field placeholder : string) : M unit :=
  src <- lift (getitem hit (lit "_source")) ;;
  v <- lift (get src (lit field) (JStr (lit placeholder))) ;;
  print (lit label ++ py_str v).

(** The body of the loop over the hits. *)
Definition display_hit (i : Z) (hit : value) : M unit :=
  print (lit "Result #" ++ str_of_int i) ;;;
  score <- lift (getitem hit (lit "_score")) ;;
  print (lit "Score : " ++ py_str score) ;;;
  id <- lift (getitem hit (lit "_id")) ;;
  print (lit "ID    : " ++ py_str id) ;;;
  print_field hit "Title : " "title" "(no title)" ;;;
  src <- lift (getitem hit (lit "_source")) ;;
  text <- lift (get src (lit "text") (JStr [])) ;;
  snip <- lift (snippet text) ;;
  print (lit "Snippet:" ++ newline ++ snip) ;;;
  print_field hit "Author: " "author" "(no author)" ;;;
  print_field hit "Published: " "published" "(no date)" ;;;
  print_field hit "Language: " "language" "(no language)" ;;;
  print_field hit "URL: " "url" "(no url)" ;;;
  print_field hit "Categories: " "categories" "(no categories)" ;;;
  print (rule "-" ++ newline).

(** [for i, hit in enumerate(hits, i0): ...] *)
Fixpoint display_hits (i : Z) (hits : list value) : M unit :=
  match hits with
  | [] => ret tt
  | hit :: r => display_hit i hit ;;; display_hits (i + 1) r
  end.

Definition display_search_results (search_results : value) (query_text : pystr)
  : M unit :=
  if negb (truthy search_results) then print (lit "No results found.") else
  total <- lift (total_hits search_results) ;;
  print (newline ++ rule "=") ;;;
  print (lit "Query: " ++ query_text) ;;;
  print (lit "Total hits: " ++ py_str total) ;;;
  print (rule "=" ++ newline) ;;;
  hits <- lift (getitem search_results (lit "hits")) ;;
  hits <- lift (getitem hits (lit "hits")) ;;
  hits <- lift (iterate hits) ;;
  display_hits 1 hits.

End Presenter.

(* ================================================================== *)
(** ** Concrete collaborators for worked examples

    A small file system given by tables: directories with their
    listing, files and archive members with their text, and the result
    of [json.loads] on the texts that occur.  All texts are ASCII, where
    UTF-8 decoding is the identity on code points. *)

Module Fixture.

Fixpoint parts_eqb (a b : list pystr) : bool :=
  match a, b with
  | [], [] => true
  | x :: a', y :: b' => str_eqb x y && parts_eqb a' b'
  | _, _ => false
  end.

Definition path_eqb (p q : Path) : bool := parts_eqb (parts p) (parts q).

Definition path (l : list string) : Path := mkPath (map lit l).

Definition to_bytes (s : pystr) : bytes :=
  map (fun c => match Byte.of_N c with Some b => b | None => Byte.x00 end) s.

Definition ascii_utf8 (raw : bytes) : option pystr :=
  if forallb (fun b => (Byte.to_N b <? 128)%N) raw
  then Some (map Byte.to_N raw) else None.

Fixpoint find_path {A} (p : Path) (l : list (Path * A)) : option A :=
  match l with
  | [] => None
  | (q, a) :: r => if path_eqb p q then Some a else find_path p r
  end.

Fixpoint find_str {A} (k : pystr) (l : list (pystr * A)) : option A :=
  match l with
  | [] => None
  | (k', a) :: r => if str_eqb k k' then Some a else find_str k r
  end.

Definition no_such_file : exn :=
  External (lit "FileNotFoundError") (lit "[Errno 2] No such file or directory").

Definition json_error (msg : string) : exn :=
  External (lit "JSONDecodeError") (lit msg).

Record Files : Type := mkFiles {
  dirs : list (Path * list Path);
  files : list (Path * pystr);
  archives : list (Path * list (pystr * pystr));
  parses : list (pystr * result value)
}.

Definition world (f : Files) : World :=
  {| is_dir := fun p => match find_path p (dirs f) with Some _ => true | None => false end;
     is_file := fun p =>
       match find_path p (files f), find_path p (archives f) with
       | None, None => false
       | _, _ => true
       end;
     rglob_json := fun p => match find_path p (dirs f) with Some l => l | None => [] end;
     read_file := fun p =>
       match find_path p (files f) with
       | Some s => inr (to_bytes s)
       | None => inl no_such_file
       end;
     zip_namelist := fun p =>
       match find_path p (archives f) with
       | Some ms => inr (map fst ms)
       | None => inl no_such_file
       end;
     zip_read := fun p m =>
       match find_path p (archives f) with
       | Some ms =>
           match find_str m ms with
           | Some s => inr (to_bytes s)
           | None =>
               inl (KeyError (lit "There is no item named '" ++ m
                              ++ lit "' in the archive"))
           end
       | None => inl no_such_file
       end;
     decode_utf8 := ascii_utf8;
     json_loads := fun s =>
       match find_str s (parses f) with
       | Some r => r
       | None => inl (json_error "Expecting value: line 1 column 1 (char 0)")
       end |}.

(** A client whose calls all succeed, and one whose calls all fail. *)
Definition es_ok (found : value) : EsClient :=
  {| es_bulk := fun _ _ => None; es_search := fun _ _ _ => inr found |}.

Definition connection_error : exn :=
  External (lit "ConnectionError") (lit "Connection refused").

Definition es_down : EsClient :=
  {| es_bulk := fun _ _ => Some connection_error;
     es_search := fun _ _ _ => inl connection_error |}.

(** JSON text is written with [q] for a quoted string. *)
Definition q (s : string) : pystr := [34%N] ++ lit s ++ [34%N].

End Fixture.

(* ================================================================== *)
(** ** Vocabulary of the statements *)

Arguments lit : simpl never.

(** The value of a field of a parsed object, [None] when it is absent:
    [data.get(f)]. *)
Definition field_or_null (kvs : list (pystr * value)) (f : pystr) : value :=
  match lookup f kvs with Some v => v | None => JNull end.

(** The document literal with its nine keys. *)
Definition document_of (kvs : list (pystr * value)) (doc_id : value) : value :=
  JObj ((lit "uuid", doc_id)
        :: map (fun f => (lit f, field_or_null kvs (lit f))) optional_fields).

(** A parsed object that has neither ['uuid'] nor ['thread']['uuid']. *)
Definition lacks_ids (kvs : list (pystr * value)) : Prop :=
  lookup (lit "uuid") kvs = None /\
  (lookup (lit "thread") kvs = None \/
   exists t, lookup (lit "thread") kvs = Some (JObj t) /\ lookup (lit "uuid") t = None).

(** A parsed object from which the id chain takes no identifier: the
    top-level ['uuid'] is absent or falsy, and ['thread'] is absent or
    an object whose ['uuid'] is absent or falsy. *)
Definition no_usable_id (kvs : list (pystr * value)) : Prop :=
  truthy (field_or_null kvs (lit "uuid")) = false /\
  (lookup (lit "thread") kvs = None \/
   exists t, lookup (lit "thread") kvs = Some (JObj t) /\
             truthy (field_or_null t (lit "uuid")) = false).

(** The parsed values from which the id chain produces an id: objects
    whose ['thread'], when the chain gets to it, is absent or an object. *)
Definition extractable (data : value) : bool :=
  match data with
  | JObj kvs =>
      truthy (field_or_null kvs (lit "uuid"))
      || match lookup (lit "thread") kvs with
         | None | Some (JObj _) => true
         | Some _ => false
         end
  | _ => false
  end.

(** What the extractor visits in a source, in its order: how the item is
    read, its fallback id, and how a diagnostic names it. *)
Record candidate : Type := mkCand {
  c_read : result bytes;
  c_fallback : pystr;
  c_label : pystr
}.

Definition dir_candidate (w : World) (path p : Path) : candidate :=
  mkCand (read_file w p) (dir_fallback path p) (path_str p).

Definition zip_candidate (w : World) (path : Path) (member : pystr) : candidate :=
  mkCand (zip_read w path member) (zip_fallback path member)
         (member ++ lit " in " ++ path_str path).

Definition file_candidate (w : World) (path : Path) : candidate :=
  mkCand (read_file w path) (file_fallback path) (path_str path).

Definition candidates (w : World) (path : Path) : list candidate :=
  if is_dir w path then
    map (dir_candidate w path) (sorted (rglob_json w path))
  else if str_eqb (lower (suffix path)) (lit ".zip") then
    match zip_namelist w path with
    | inr members =>
        map (zip_candidate w path)
            (filter (fun m => endswith (lower m) (lit ".json")) members)
    | inl _ => []
    end
  else if is_file w path && str_eqb (lower (suffix path)) (lit ".json") then
    [file_candidate w path]
  else [].

(** The source can be opened: an archive's member list can be read. *)
Definition opens (w : World) (path : Path) : Prop :=
  is_dir w path = false ->
  str_eqb (lower (suffix path)) (lit ".zip") = true ->
  exists members, zip_namelist w path = inr members.

Definition diagnostic (c : candidate) (e : exn) : pystr :=
  lit "Failed reading " ++ c_label c ++ lit ": " ++ exn_str e.

(** What a file parses to: read, decode, [json.loads]. *)
Definition parsed (w : World) (p : Path) : result value :=
  match read_file w p with
  | inl e => inl e
  | inr raw => json_loads w (decode w raw)
  end.

(** One candidate, with the handler of its branch. *)
Definition item (w : World) (c : candidate) : M unit :=
  try_except (extract_item w (c_read c) (c_fallback c))
             (fun e => print (diagnostic c e)).

(** An item that reads, parses, and has a usable shape. *)
Definition well_formed (w : World) (c : candidate) : Prop :=
  exists raw data,
    c_read c = inr raw /\ json_loads w (decode w raw) = inr data /\
    extractable data = true.

(** What a well-formed item yields: the id of the chain, and a document
    that has the id under ['uuid'] and every optional field under its
    key, with the value of the parsed object or [None]. *)
Definition yielded (w : World) (c : candidate) (pr : value * value) : Prop :=
  exists raw kvs dkvs,
    c_read c = inr raw /\ json_loads w (decode w raw) = inr (JObj kvs) /\
    derive_id (JObj kvs) (c_fallback c) = inr (fst pr) /\
    snd pr = JObj dkvs /\
    lookup (lit "uuid") dkvs = Some (fst pr) /\
    forall f, In f optional_fields ->
      lookup (lit f) dkvs
      = Some (match lookup (lit f) kvs with Some v => v | None => JNull end).

Definition yield_event (pr : value * value) : event := Yield (fst pr) (snd pr).

(** An item that cannot be read or is not JSON, with the exception. *)
Definition corrupt (w : World) (c : candidate) (e : exn) : Prop :=
  c_read c = inl e \/
  exists raw, c_read c = inr raw /\ json_loads w (decode w raw) = inl e.

(** The batches a loader of batch size [B] makes of a list of actions. *)
Fixpoint batches (B : Z) (acc l : list value) : list (list value) :=
  match l with
  | [] => match acc with [] => [] | _ :: _ => [acc] end
  | a :: r =>
      let acc' := acc ++ [a] in
      if len acc' >=? B then acc' :: batches B [] r else batches B acc' r
  end.

(** The last, partial batch. *)
Definition flush (acc : list value) : list (list value) :=
  match acc with [] => [] | _ :: _ => [acc] end.

(** The field a hit shows: the stored value, or the placeholder when the
    key is missing. *)
Definition shown (src : list (pystr * value)) (field placeholder : string) : value :=
  match lookup (lit field) src with
  | Some v => v
  | None => JStr (lit placeholder)
  end.

(** [hit['_source'].get('text', '')] *)
Definition text_of (src : list (pystr * value)) : value :=
  match lookup (lit "text") src with Some v => v | None => JStr [] end.

(** The four lines that open a report. *)
Definition header (repr : value -> pystr) (total : value) (query_text : pystr)
  : list event :=
  [Print (newline ++ rule "=");
   Print (lit "Query: " ++ query_text);
   Print (lit "Total hits: " ++ py_str repr total);
   Print (rule "=" ++ newline)].

(** The lines of a hit up to its title, and those from its snippet on. *)
Definition hit_head (repr : value -> pystr) (i : Z) (score doc_id : value)
    (src : list (pystr * value)) : list event :=
  [Print (lit "Result #" ++ str_of_int i);
   Print (lit "Score : " ++ py_str repr score);
   Print (lit "ID    : " ++ py_str repr doc_id);
   Print (lit "Title : " ++ py_str repr (shown src "title" "(no title)"))].

Definition hit_tail (repr : value -> pystr) (snip : pystr)
    (src : list (pystr * value)) : list event :=
  [Print (lit "Snippet:" ++ newline ++ snip);
   Print (lit "Author: " ++ py_str repr (shown src "author" "(no author)"));
   Print (lit "Published: " ++ py_str repr (shown src "published" "(no date)"));
   Print (lit "Language: " ++ py_str repr (shown src "language" "(no language)"));
   Print (lit "URL: " ++ py_str repr (shown src "url" "(no url)"));
   Print (lit "Categories: " ++ py_str repr (shown src "categories" "(no categories)"));
   Print (rule "-" ++ newline)].

(** The part of the report after the header: the loop over the hits. *)
Definition hits_report (repr : value -> pystr) (search_results : value) : M unit :=
  hits <- lift (getitem search_results (lit "hits")) ;;
  hits <- lift (getitem hits (lit "hits")) ;;
  hits <- lift (iterate hits) ;;
  display_hits repr 1 hits.

(** A hit whose block prints in full, at any position. *)
Definition displayable (repr : value -> pystr) (hit : value) : Prop :=
  forall i, exists t, display_hit repr i hit = (t, inr tt).

Definition not_subscriptable (v : value) : exn :=
  TypeError (lit "'" ++ type_name v ++ lit "' object is not subscriptable").

(** A hit as the service returns it for a stored document. *)
Definition hit_of (score doc_id doc : value) : value :=
  JObj [(lit "_score", score); (lit "_id", doc_id); (lit "_source", doc)].

(* ================================================================== *)
(** ** Worked inputs *)

Module Inputs.
Import Fixture.

Definition colon : pystr := lit ": ".
Definition comma : pystr := lit ", ".

(** [{"uuid": "u1", "thread": {"uuid": "t1"}}] *)
Definition both_ids_text : pystr :=
  lit "{" ++ q "uuid" ++ colon ++ q "u1" ++ comma ++ q "thread" ++ colon
  ++ lit "{" ++ q "uuid" ++ colon ++ q "t1" ++ lit "}}".
Definition both_ids : list (pystr * value) :=
  [(lit "uuid", JStr (lit "u1"));
   (lit "thread", JObj [(lit "uuid", JStr (lit "t1"))])].

(** [{"uuid": "", "thread": {"uuid": "t9"}}]: the empty string written
    as two quotes. *)
Definition empty_uuid_text : pystr :=
  lit "{" ++ q "uuid" ++ colon ++ [34%N; 34%N] ++ comma ++ q "thread" ++ colon
  ++ lit "{" ++ q "uuid" ++ colon ++ q "t9" ++ lit "}}".
Definition empty_uuid : list (pystr * value) :=
  [(lit "uuid", JStr []);
   (lit "thread", JObj [(lit "uuid", JStr (lit "t9"))])].

(** [{"title": "T"}] *)
Definition title_only_text : pystr :=
  lit "{" ++ q "title" ++ colon ++ q "T" ++ lit "}".
Definition title_only : list (pystr * value) := [(lit "title", JStr (lit "T"))].

(** [{"uuid": "u2", "text": "hello"}] *)
Definition uuid_text_text : pystr :=
  lit "{" ++ q "uuid" ++ colon ++ q "u2" ++ comma ++ q "text" ++ colon
  ++ q "hello" ++ lit "}".
Definition uuid_text : list (pystr * value) :=
  [(lit "uuid", JStr (lit "u2")); (lit "text", JStr (lit "hello"))].

(** [{"uuid": "u3", "title": "News"}] *)
Definition uuid_title_text : pystr :=
  lit "{" ++ q "uuid" ++ colon ++ q "u3" ++ comma ++ q "title" ++ colon
  ++ q "News" ++ lit "}".
Definition uuid_title : list (pystr * value) :=
  [(lit "uuid", JStr (lit "u3")); (lit "title", JStr (lit "News"))].

(** [[1, 2]]: well-formed JSON that is not an object. *)
Definition array_text : pystr := lit "[1, 2]".
Definition array_value : value := JArr [JInt 1; JInt 2].

(** [{]: not JSON. *)
Definition broken_text : pystr := lit "{".
Definition broken_error : exn :=
  json_error
    "Expecting property name enclosed in double quotes: line 1 column 2 (char 1)".

Definition parse_table : list (pystr * result value) :=
  [(both_ids_text, inr (JObj both_ids));
   (empty_uuid_text, inr (JObj empty_uuid));
   (title_only_text, inr (JObj title_only));
   (uuid_text_text, inr (JObj uuid_text));
   (uuid_title_text, inr (JObj uuid_title));
   (array_text, inr array_value);
   (broken_text, inl broken_error)].

Definition news : Path := path ["news"]%string.
Definition news_a : Path := path ["news"; "a.json"]%string.
Definition news_b : Path := path ["news"; "b.json"]%string.
Definition news_c : Path := path ["news"; "c.json"]%string.
Definition dump_zip : Path := path ["data"; "dump.zip"]%string.
Definition lone : Path := path ["data"; "a.json"]%string.

(** A directory holding one file, with the given text. *)
Definition one_file (text : pystr) : World :=
  world {| dirs := [(news, [news_a])];
           files := [(news_a, text)];
           archives := [];
           parses := parse_table |}.

(** A directory of three files, listed in no particular order. *)
Definition three_files (a b c : pystr) : World :=
  world {| dirs := [(news, [news_c; news_a; news_b])];
           files := [(news_a, a); (news_b, b); (news_c, c)];
           archives := [];
           parses := parse_table |}.

(** An archive with one JSON member and one other member, and a JSON
    file on its own. *)
Definition mixed (text : pystr) : World :=
  world {| dirs := [];
           files := [(lone, text)];
           archives := [(dump_zip, [(lit "x/a.json", text); (lit "readme.txt", lit "hi")])];
           parses := parse_table |}.

Definition no_repr (v : value) : pystr := lit "?".

Definition pair_n (n : Z) : value * value := (JInt n, JObj [(lit "title", JNull)]).
Definition five_pairs : list (value * value) := map pair_n [1; 2; 3; 4; 5].
Definition iter_five : M unit := Eval cbv in iter_pairs five_pairs.

(** A result set with the given total and hits. *)
Definition result_set (total : value) (hits : list value) : value :=
  JObj [(lit "hits", JObj [(lit "total", total); (lit "hits", JArr hits)])].

(** A hit whose text is [n] times the letter x. *)
Definition text_source (n : nat) : list (pystr * value) :=
  [(lit "uuid", JStr (lit "u1")); (lit "text", JStr (repeat 120%N n))].
Definition text_hit (n : nat) : value :=
  hit_of (JFloat 1.5) (JStr (lit "u1")) (JObj (text_source n)).

End Inputs.

(* ================================================================== *)
(** ** [data_indexer.iter_jsons_in_path] over a file system that may refuse

    [Path.is_dir] and [Path.is_file] swallow the errors of a missing or
    dangling path and re-raise any other [OSError] (a name too long, a
    permission denied), and so does the walk of [Path.rglob]; [World]
    takes the three as returning.  Here they are calls that may raise,
    and the branches are those of the source, in the source's order. *)

Record Probes : Type := mkProbes {
  (* path.is_dir() *)
  probe_is_dir : Path -> result bool;
  (* list(path.rglob('*.json')) *)
  probe_rglob_json : Path -> result (list Path);
  (* path.is_file() *)
  probe_is_file : Path -> result bool
}.

Definition iter_jsons_in_path_os (pr : Probes) (w : World) (path : Path) : M unit :=
  d <- lift (probe_is_dir pr path) ;;
  if d then
    ps <- lift (probe_rglob_json pr path) ;;
    for_each (sorted ps) (dir_item w path)
  else if str_eqb (lower (suffix path)) (lit ".zip") then
    members <- lift (zip_namelist w path) ;;
    for_each members (zip_item w path)
  else
    f <- lift (probe_is_file pr path) ;;
    if f && str_eqb (lower (suffix path)) (lit ".json") then
      file_item w path
    else
      print (lit "Skipping unsupported path type: " ++ path_str path).

(** The probes of a file system that answers as [w] does. *)
Definition probes_of (w : World) : Probes :=
  {| probe_is_dir := fun p => inr (is_dir w p);
     probe_rglob_json := fun p => inr (rglob_json w p);
     probe_is_file := fun p => inr (is_file w p) |}.

(* ================================================================== *)
(** ** [config.py], [elasticsearch_client.py] and [mapping.py] *)

Definition ES_HOST : pystr := lit "http://127.0.0.1".
Definition ES_PORT : pystr := lit "9200".
Definition ES_URL : pystr := ES_HOST ++ lit ":" ++ ES_PORT.
Definition BATCH_SIZE : Z := 500.

Section Connection.

(** [Elasticsearch(url)] and [es.ping()]: the client library's. *)
Variable new_client : pystr -> result EsClient.
Variable ping : EsClient -> result value.

Definition check_mark : pystr := [10003%N].
Definition cross_mark : pystr := [10007%N].

Definition ping_failed : exn :=
  External (lit "Exception") (lit "Failed to ping Elasticsearch server").

(** The constructor runs before the [try]; the [else] branch raises inside
    it, so its exception too is reported by the handler and raised again. *)
Definition create_es_client : M EsClient :=
  es <- lift (new_client ES_URL) ;;
  try_except
    (print (lit "Connecting to Elasticsearch at " ++ ES_URL) ;;;
     alive <- lift (ping es) ;;
     if truthy alive then
       print (check_mark ++ lit " Successfully connected to Elasticsearch") ;;;
       ret es
     else
       raise ping_failed)
    (fun e =>
       print (cross_mark ++ lit " Error connecting to Elasticsearch: " ++ exn_str e) ;;;
       raise e).

End Connection.

Definition jstr (s : string) : value := JStr (lit s).

Definition text_field : value :=
  JObj [(lit "type", jstr "text"); (lit "analyzer", jstr "my_analyzer");
        (lit "search_analyzer", jstr "my_analyzer")].

Definition keyword_field : value := JObj [(lit "type", jstr "keyword")].

Definition MAPPING : value :=
  JObj
    [(lit "settings",
      JObj [(lit "analysis",
        JObj [(lit "filter",
                JObj [(lit "my_stemmer",
                        JObj [(lit "type", jstr "stemmer");
                              (lit "language", jstr "english")]);
                      (lit "my_shingle_filter",
                        JObj [(lit "type", jstr "shingle");
                              (lit "min_shingle_size", JInt 2);
                              (lit "max_shingle_size", JInt 3);
                              (lit "output_unigrams", JBool true)])]);
              (lit "analyzer",
                JObj [(lit "my_analyzer",
                        JObj [(lit "type", jstr "custom");
                              (lit "tokenizer", jstr "standard");
                              (lit "char_filter", JArr [jstr "html_strip"]);
                              (lit "filter",
                                JArr [jstr "lowercase"; jstr "stop"; jstr "apostrophe";
                                      jstr "decimal_digit"; jstr "trim";
                                      jstr "my_stemmer"; jstr "my_shingle_filter"])])])])]);
     (lit "mappings",
      JObj [(lit "properties",
        JObj [(lit "uuid", keyword_field);
              (lit "title", text_field);
              (lit "text", text_field);
              (lit "author", keyword_field);
              (lit "published",
                JObj [(lit "type", jstr "date");
                      (lit "format", jstr "strict_date_optional_time||epoch_millis")]);
              (lit "language", keyword_field);
              (lit "sentiment", keyword_field);
              (lit "categories", keyword_field);
              (lit "url", keyword_field)])])].

(* ================================================================== *)
(** ** Further vocabulary *)

(** [list(d)] for a value: the keys of a dict, in order. *)
Definition keys_of (v : value) : list pystr :=
  match v with
  | JObj kvs => map fst kvs
  | _ => []
  end.

(** [MAPPING['mappings']['properties']] *)
Definition mapped_properties : value :=
  match getitem MAPPING (lit "mappings") with
  | inr m => match getitem m (lit "properties") with inr p => p | inl _ => JNull end
  | inl _ => JNull
  end.

(** The path is one of the three kinds the extractor reads. *)
Definition supported (w : World) (path : Path) : bool :=
  is_dir w path
  || str_eqb (lower (suffix path)) (lit ".zip")
  || (is_file w path && str_eqb (lower (suffix path)) (lit ".json")).

(** What one candidate leaves in the trace: the pair built from its
    parsed object, or the diagnostic of the exception that ended its
    [try] block. *)
Definition outcome (w : World) (c : candidate) (ev : event) : Prop :=
  (exists raw kvs doc_id,
     c_read c = inr raw /\ json_loads w (decode w raw) = inr (JObj kvs) /\
     derive_id (JObj kvs) (c_fallback c) = inr doc_id /\
     ev = Yield doc_id (document_of kvs doc_id)) \/
  (exists e,
     extract_item w (c_read c) (c_fallback c) = ([], inl e) /\
     ev = Print (diagnostic c e)).

(** The optional fields the presenter shows. *)
Definition shown_fields : list string :=
  ["title"; "text"; "author"; "published"; "language"; "url"; "categories"]%string.

(** The same world with another listing of the directories. *)
Definition with_listing (w : World) (listing : Path -> list Path) : World :=
  {| is_dir := is_dir w; is_file := is_file w; rglob_json := listing;
     read_file := read_file w; zip_namelist := zip_namelist w;
     zip_read := zip_read w; decode_utf8 := decode_utf8 w;
     json_loads := json_loads w |}.

(** The path order: not after. *)
Definition path_leb (p q : Path) : bool := negb (path_ltb q p).

(** One action per batch. *)
Definition singletons (l : list value) : list (list value) := map (fun a => [a]) l.

(** A generic lexicographic comparison, of which [str_ltb] and
    [parts_ltb] are instances. *)
Fixpoint lex_ltb {A} (ltb eqb : A -> A -> bool) (a b : list A) : bool :=
  match a, b with
  | _, [] => false
  | [], _ :: _ => true
  | x :: a', y :: b' => ltb x y || (eqb x y && lex_ltb ltb eqb a' b')
  end.

(* ================================================================== *)
(** ** Further worked inputs *)

Module MoreInputs.
Import Fixture.

(** [{"thread": {"uuid": "t1"}, "title": "T"}] *)
Definition thread_only_text : pystr :=
  lit "{" ++ q "thread" ++ Inputs.colon ++ lit "{" ++ q "uuid" ++ Inputs.colon
  ++ q "t1" ++ lit "}" ++ Inputs.comma ++ q "title" ++ Inputs.colon ++ q "T" ++ lit "}".
Definition thread_only : list (pystr * value) :=
  [(lit "thread", JObj [(lit "uuid", JStr (lit "t1"))]); (lit "title", JStr (lit "T"))].

(** [{"thread": null, "title": "T"}] *)
Definition null_thread_text : pystr :=
  lit "{" ++ q "thread" ++ Inputs.colon ++ lit "null" ++ Inputs.comma
  ++ q "title" ++ Inputs.colon ++ q "T" ++ lit "}".
Definition null_thread : list (pystr * value) :=
  [(lit "thread", JNull); (lit "title", JStr (lit "T"))].

(** [{"uuid": null, "thread": {"uuid": 0}}] *)
Definition falsy_ids_text : pystr :=
  lit "{" ++ q "uuid" ++ Inputs.colon ++ lit "null" ++ Inputs.comma
  ++ q "thread" ++ Inputs.colon ++ lit "{" ++ q "uuid" ++ Inputs.colon
  ++ lit "0}}".
Definition falsy_ids : list (pystr * value) :=
  [(lit "uuid", JNull); (lit "thread", JObj [(lit "uuid", JInt 0)])].

Definition parse_table : list (pystr * result value) :=
  Inputs.parse_table
  ++ [(thread_only_text, inr (JObj thread_only));
      (null_thread_text, inr (JObj null_thread));
      (falsy_ids_text, inr (JObj falsy_ids))].

Definition news_sub_a : Path := path ["news"; "sub"; "a.json"]%string.

(** A directory with two files of the same name at different depths. *)
Definition nested (top deep : pystr) : World :=
  world {| dirs := [(Inputs.news, [news_sub_a; Inputs.news_a])];
           files := [(Inputs.news_a, top); (news_sub_a, deep)];
           archives := [];
           parses := parse_table |}.

(** The same three files as [Inputs.three_files], listed in another order. *)
Definition three_files_relisted (a b c : pystr) : World :=
  world {| dirs := [(Inputs.news, [Inputs.news_b; Inputs.news_c; Inputs.news_a])];
           files := [(Inputs.news_a, a); (Inputs.news_b, b); (Inputs.news_c, c)];
           archives := [];
           parses := parse_table |}.

(** An iterator that yields the five pairs and then raises. *)
Definition iter_five_then_fail : M unit :=
  (fst Inputs.iter_five, inl no_such_file).

(** A client whose second submission fails. *)
Definition es_second_fails : EsClient :=
  {| es_bulk := fun hist _ =>
       match hist with
       | [_] => Some connection_error
       | _ => None
       end;
     es_search := fun _ _ _ => inl connection_error |}.

(** A hit whose source has only the id. *)
Definition bare_hit : value :=
  hit_of (JInt 2) (JStr (lit "u9")) (JObj [(lit "uuid", JStr (lit "u9"))]).

(** A server that answers the ping, and one that does not. *)
Definition connect (url : pystr) : result EsClient := inr (es_ok JNull).
Definition ping_true (es : EsClient) : result value := inr (JBool true).
Definition ping_false (es : EsClient) : result value := inr (JBool false).

(** What the extractor yields for a directory whose one file holds
    [{"uuid": "u3", "title": "News"}], and the hits the service returns
    for what it yielded, with the given score. *)
Definition extracted : list (value * value) :=
  yields (fst (iter_jsons_in_path (Inputs.one_file Inputs.uuid_title_text)
                 Inputs.news)).
Definition extracted_hits (score : value) : list value :=
  map (fun pr => hit_of score (fst pr) (snd pr)) extracted.

(** A file system on which every test of the path's kind is refused. *)
Definition name_too_long : exn :=
  External (lit "OSError") (lit "[Errno 36] File name too long").
Definition refusing : Probes :=
  {| probe_is_dir := fun _ => inl name_too_long;
     probe_rglob_json := fun _ => inr [];
     probe_is_file := fun _ => inl name_too_long |}.

(** A non-empty result set without ['hits']. *)
Definition no_hits_key : list (pystr * value) := [(lit "took", JInt 3)].

(** [{"hits": {"total": {"value": 3}}}]: a total, and no list of hits. *)
Definition no_inner_hits : list (pystr * value) :=
  [(lit "hits", JObj [(lit "total", JObj [(lit "value", JInt 3)])])].

End MoreInputs.

(* ================================================================== *)
(** ** Basic facts *)

Lemma str_eqb_refl (s : pystr) : str_eqb s s = true.
Proof.
  induction s as [|c s IH]; simpl; [reflexivity|].
  now rewrite N.eqb_refl, IH.
Qed.

Lemma str_eqb_eq (a b : pystr) : str_eqb a b = true <-> a = b.
Proof.
  split.
  - revert b; induction a as [|x a IH]; intros [|y b] H; simpl in H;
      try discriminate; [reflexivity|].
    apply andb_true_iff in H as [Hx Hr].
    apply N.eqb_eq in Hx. apply IH in Hr. congruence.
  - intros ->. apply str_eqb_refl.
Qed.

Lemma bind_lift_inr {A B} (a : A) (k : A -> M B) : bind (lift (inr a)) k = k a.
Proof. unfold bind, lift. now destruct (k a). Qed.

Lemma bind_ret {A B} (a : A) (k : A -> M B) : bind (ret a) k = k a.
Proof. unfold bind, ret. now destruct (k a). Qed.

Lemma bind_event {B} (ev : event) (k : unit -> M B) :
  bind (([ev], inr tt) : M unit) k = (ev :: fst (k tt), snd (k tt)).
Proof. unfold bind. now destruct (k tt). Qed.

Lemma yields_app (s t : list event) : yields (s ++ t) = yields s ++ yields t.
Proof.
  induction s as [|[l|i d|a] s IH]; simpl; auto. now rewrite IH.
Qed.

Lemma prints_app (s t : list event) : prints (s ++ t) = prints s ++ prints t.
Proof.
  induction s as [|[l|i d|a] s IH]; simpl; auto. now rewrite IH.
Qed.

Lemma bulks_app (s t : list event) : bulks (s ++ t) = bulks s ++ bulks t.
Proof.
  induction s as [|[l|i d|a] s IH]; simpl; auto. now rewrite IH.
Qed.

(* ================================================================== *)
(** ** The extractor, item by item *)

Section ExtractorFacts.

Variable w : World.

Lemma project_object (kvs : list (pystr * value)) (fields : list string) :
  project (JObj kvs) fields
  = inr (map (fun f => (lit f, field_or_null kvs (lit f))) fields).
Proof.
  induction fields as [|f r IH]; simpl; [reflexivity|].
  now rewrite IH.
Qed.

Lemma make_doc_object (kvs : list (pystr * value)) (doc_id : value) :
  make_doc (JObj kvs) doc_id = inr (document_of kvs doc_id).
Proof. unfold make_doc. now rewrite project_object. Qed.

(** The [try] block, step by step. *)
Lemma extract_item_steps (read : result bytes) (fallback : pystr) :
  extract_item w read fallback
  = match read with
    | inl e => raise e
    | inr raw =>
        match json_loads w (decode w raw) with
        | inl e => raise e
        | inr data =>
            match derive_id data fallback with
            | inl e => raise e
            | inr doc_id =>
                match make_doc data doc_id with
                | inl e => raise e
                | inr doc => yield doc_id doc
                end
            end
        end
    end.
Proof.
  unfold extract_item.
  destruct read as [e|raw]; [reflexivity|]. rewrite bind_lift_inr.
  destruct (json_loads w (decode w raw)) as [e|data]; [reflexivity|].
  rewrite bind_lift_inr.
  destruct (derive_id data fallback) as [e|doc_id]; [reflexivity|].
  rewrite bind_lift_inr.
  destruct (make_doc data doc_id) as [e|doc]; [reflexivity|].
  now rewrite bind_lift_inr.
Qed.

Lemma derive_id_explicit kvs u fallback :
  lookup (lit "uuid") kvs = Some u -> truthy u = true ->
  derive_id (JObj kvs) fallback = inr u.
Proof.
  intros Hu Ht. unfold derive_id, get. now rewrite Hu, Ht.
Qed.

Lemma derive_id_fallback kvs fallback :
  lacks_ids kvs -> derive_id (JObj kvs) fallback = inr (JStr fallback).
Proof.
  intros [Hu Ht]. unfold derive_id, get. rewrite Hu. simpl truthy. cbv iota.
  destruct Ht as [Ht|[t [Ht Htu]]]; rewrite Ht.
  - reflexivity.
  - now rewrite Htu.
Qed.

Ltac split_id_chain :=
  repeat match goal with
  | |- context [lookup ?k (_ :: _)] => fail 1
  | |- context [match lookup ?k ?l with Some _ => _ | None => _ end] =>
      destruct (lookup k l) as [[| | | | | |?]|] eqn:?
  | |- context [if truthy ?v then _ else _] => destruct (truthy v) eqn:?
  end.

Lemma derive_id_total data fallback :
  extractable data = true -> exists doc_id, derive_id data fallback = inr doc_id.
Proof.
  destruct data as [| | | | | |kvs]; simpl; try discriminate.
  unfold derive_id, get, field_or_null.
  split_id_chain; simpl; try discriminate; intros _;
    split_id_chain; eexists; reflexivity.
Qed.

Lemma derive_id_fails data fallback :
  extractable data = false -> exists e, derive_id data fallback = inl e.
Proof.
  destruct data as [| | | | | |kvs]; simpl; try (intros _; eexists; reflexivity).
  unfold derive_id, get, field_or_null.
  split_id_chain; simpl; try discriminate; intros _; eexists; reflexivity.
Qed.

Lemma dir_item_candidate path p : dir_item w path p = item w (dir_candidate w path p).
Proof. reflexivity. Qed.

Lemma file_item_candidate path : file_item w path = item w (file_candidate w path).
Proof. reflexivity. Qed.

Lemma zip_item_candidate path m :
  endswith (lower m) (lit ".json") = true ->
  zip_item w path m = item w (zip_candidate w path m).
Proof.
  intros H. unfold zip_item, item. rewrite H. simpl negb. cbv iota.
  unfold try_except. simpl c_read. simpl c_fallback.
  destruct (extract_item w (zip_read w path m) (zip_fallback path m)) as [t [e|a]];
    [|reflexivity].
  unfold diagnostic, print. simpl c_label.
  now repeat rewrite <- app_assoc.
Qed.
Lemma item_yields c raw kvs doc_id :
  c_read c = inr raw ->
  json_loads w (decode w raw) = inr (JObj kvs) ->
  derive_id (JObj kvs) (c_fallback c) = inr doc_id ->
  item w c = ([Yield doc_id (document_of kvs doc_id)], inr tt).
Proof.
  intros Hr Hp Hi. unfold item. rewrite extract_item_steps, Hr, Hp, Hi.
  now rewrite make_doc_object.
Qed.

Lemma item_corrupt c e :
  corrupt w c e -> item w c = ([Print (diagnostic c e)], inr tt).
Proof.
  intros [Hr|[raw [Hr Hp]]]; unfold item; rewrite extract_item_steps, Hr;
    [|rewrite Hp]; reflexivity.
Qed.

Lemma item_unusable c raw data :
  c_read c = inr raw ->
  json_loads w (decode w raw) = inr data ->
  extractable data = false ->
  exists e, item w c = ([Print (diagnostic c e)], inr tt).
Proof.
  intros Hr Hp Hx. destruct (derive_id_fails data (c_fallback c) Hx) as [e He].
  exists e. unfold item. now rewrite extract_item_steps, Hr, Hp, He.
Qed.

Lemma document_fields kvs doc_id f :
  In f optional_fields ->
  lookup (lit f) ((lit "uuid", doc_id)
                  :: map (fun f => (lit f, field_or_null kvs (lit f))) optional_fields)
  = Some (match lookup (lit f) kvs with Some v => v | None => JNull end).
Proof.
  intros H. simpl in H.
  repeat (destruct H as [<-|H]; [reflexivity|]). destruct H.
Qed.

Lemma item_well_formed c :
  well_formed w c ->
  exists pr, item w c = ([yield_event pr], inr tt) /\ yielded w c pr.
Proof.
  intros [raw [data [Hr [Hp Hx]]]].
  destruct (derive_id_total data (c_fallback c) Hx) as [doc_id Hi].
  destruct data as [| | | | | |kvs]; try discriminate.
  exists (doc_id, document_of kvs doc_id). split.
  - now apply item_yields with (raw := raw).
  - exists raw, kvs. eexists. repeat split; eauto.
    intros f Hf. now apply document_fields.
Qed.

End ExtractorFacts.

(* ================================================================== *)
(** ** Identifier derivation *)

Lemma joined_name_nonempty (a b : pystr) : truthy (JStr (a ++ slash ++ b)) = true.
Proof. destruct a; reflexivity. Qed.

Lemma json_suffix_name_nonempty (path : Path) :
  str_eqb (lower (suffix path)) (lit ".json") = true ->
  truthy (JStr (name path)) = true.
Proof.
  unfold suffix. destruct (name path) as [|c n]; [|reflexivity].
  vm_compute. discriminate.
Qed.

(** C1, as amended.  When the parsed object of an item has a top-level
    ['uuid'] whose value is truthy, the pair yielded for the item has that
    value as its id and under the document's ['uuid'] key, in the
    directory, the archive and the single-file branch alike, whatever
    the nested thread identifier and the fallback are. *)
Theorem explicit_uuid_is_id (w : World) (path : Path) (raw : bytes)
    (kvs : list (pystr * value)) (u : value) :
  json_loads w (decode w raw) = inr (JObj kvs) ->
  lookup (lit "uuid") kvs = Some u ->
  truthy u = true ->
  (forall p, read_file w p = inr raw ->
     dir_item w path p = ([Yield u (document_of kvs u)], inr tt)) /\
  (forall m, endswith (lower m) (lit ".json") = true ->
     zip_read w path m = inr raw ->
     zip_item w path m = ([Yield u (document_of kvs u)], inr tt)) /\
  (read_file w path = inr raw ->
     file_item w path = ([Yield u (document_of kvs u)], inr tt)) /\
  get (document_of kvs u) (lit "uuid") JNull = inr u.
Proof.
  intros Hp Hu Ht.
  repeat split.
  - intros p Hr. rewrite dir_item_candidate.
    apply item_yields with (raw := raw); auto using derive_id_explicit.
  - intros m Hm Hr. rewrite zip_item_candidate by assumption.
    apply item_yields with (raw := raw); auto using derive_id_explicit.
  - intros Hr. rewrite file_item_candidate.
    apply item_yields with (raw := raw); auto using derive_id_explicit.
Qed.

Lemma explicit_uuid_is_id_witness :
  iter_jsons_in_path (Inputs.one_file Inputs.both_ids_text) Inputs.news
  = ([Yield (JStr (lit "u1")) (document_of Inputs.both_ids (JStr (lit "u1")))],
     inr tt).
Proof.
  assert (H : dir_item (Inputs.one_file Inputs.both_ids_text) Inputs.news Inputs.news_a
              = ([Yield (JStr (lit "u1")) (document_of Inputs.both_ids (JStr (lit "u1")))],
                 inr tt)).
  { refine (proj1 (@explicit_uuid_is_id (Inputs.one_file Inputs.both_ids_text)
                     Inputs.news (Fixture.to_bytes Inputs.both_ids_text)
                     Inputs.both_ids (JStr (lit "u1")) _ _ _) Inputs.news_a _);
      vm_compute; reflexivity. }
  change (iter_jsons_in_path (Inputs.one_file Inputs.both_ids_text) Inputs.news)
    with (bind (dir_item (Inputs.one_file Inputs.both_ids_text) Inputs.news Inputs.news_a)
               (fun _ => ret tt)).
  rewrite H. reflexivity.
Defined.

(** C1 as stated fails: the item [{"uuid": "", "thread": {"uuid": "t9"}}]
    has an explicit top-level ['uuid'], the empty string, and the id of
    the pair the extractor yields is the thread's identifier. *)
Lemma empty_uuid_is_not_the_id :
  exists raw doc,
    read_file (Inputs.one_file Inputs.empty_uuid_text) Inputs.news_a = inr raw /\
    json_loads (Inputs.one_file Inputs.empty_uuid_text)
               (decode (Inputs.one_file Inputs.empty_uuid_text) raw)
    = inr (JObj Inputs.empty_uuid) /\
    lookup (lit "uuid") Inputs.empty_uuid = Some (JStr []) /\
    iter_jsons_in_path (Inputs.one_file Inputs.empty_uuid_text) Inputs.news
    = ([Yield (JStr (lit "t9")) doc], inr tt) /\
    JStr (lit "t9") <> JStr [].
Proof.
  eexists. eexists.
  split; [vm_compute; reflexivity|].
  split; [vm_compute; reflexivity|].
  split; [reflexivity|].
  split; [vm_compute; reflexivity|].
  vm_compute. discriminate.
Qed.

Lemma derive_id_no_usable kvs fallback :
  no_usable_id kvs -> derive_id (JObj kvs) fallback = inr (JStr fallback).
Proof.
  intros [Hu Ht]. unfold derive_id, get. unfold field_or_null in Hu.
  destruct (lookup (lit "uuid") kvs) as [u|]; [rewrite Hu|]; simpl;
    (destruct Ht as [Ht|[t [Ht Htu]]]; rewrite Ht; [reflexivity|]);
    unfold field_or_null in Htu;
    (destruct (lookup (lit "uuid") t) as [tu|]; [now rewrite Htu | reflexivity]).
Qed.

(** Absent keys are the first case of an object without usable id. *)
Lemma lacks_ids_no_usable kvs : lacks_ids kvs -> no_usable_id kvs.
Proof.
  intros [Hu Ht]. split; [unfold field_or_null; now rewrite Hu|].
  destruct Ht as [Ht|[t [Ht Htu]]]; [now left|].
  right. exists t. split; [assumption|]. unfold field_or_null. now rewrite Htu.
Qed.

(** C2, as amended.  When the id chain finds no identifier in the parsed
    object of an item (the top-level ['uuid'] is absent or falsy, and
    ['thread'] is absent or an object whose ['uuid'] is absent or falsy),
    the id of the yielded pair is a non-empty string fixed by names
    alone, so the same on every run over the same source: the name of
    the directory, a slash and the file's name; the archive's stem, a
    slash and the member's name; and for a single JSON file the file's
    own name, with no container in it. *)
Theorem fallback_id_from_names (w : World) (path : Path) (raw : bytes)
    (kvs : list (pystr * value)) :
  json_loads w (decode w raw) = inr (JObj kvs) ->
  no_usable_id kvs ->
  (forall p, read_file w p = inr raw ->
     dir_item w path p
     = ([Yield (JStr (name path ++ slash ++ name p))
               (document_of kvs (JStr (name path ++ slash ++ name p)))], inr tt)
     /\ truthy (JStr (name path ++ slash ++ name p)) = true) /\
  (forall m, endswith (lower m) (lit ".json") = true ->
     zip_read w path m = inr raw ->
     zip_item w path m
     = ([Yield (JStr (stem path ++ slash ++ m))
               (document_of kvs (JStr (stem path ++ slash ++ m)))], inr tt)
     /\ truthy (JStr (stem path ++ slash ++ m)) = true) /\
  (read_file w path = inr raw ->
     str_eqb (lower (suffix path)) (lit ".json") = true ->
     file_item w path
     = ([Yield (JStr (name path)) (document_of kvs (JStr (name path)))], inr tt)
     /\ truthy (JStr (name path)) = true).
Proof.
  intros Hp Hl.
  repeat split.
  - rewrite dir_item_candidate.
    apply item_yields with (raw := raw); auto. now apply derive_id_no_usable.
  - apply joined_name_nonempty.
  - rewrite zip_item_candidate by assumption.
    apply item_yields with (raw := raw); auto. now apply derive_id_no_usable.
  - apply joined_name_nonempty.
  - rewrite file_item_candidate.
    apply item_yields with (raw := raw); auto. now apply derive_id_no_usable.
  - now apply json_suffix_name_nonempty.
Qed.

Lemma fallback_id_from_names_witness :
  dir_item (Inputs.one_file Inputs.title_only_text) Inputs.news Inputs.news_a
  = ([Yield (JStr (lit "news/a.json"))
            (document_of Inputs.title_only (JStr (lit "news/a.json")))], inr tt)
  /\ zip_item (Inputs.mixed Inputs.title_only_text) Inputs.dump_zip (lit "x/a.json")
     = ([Yield (JStr (lit "dump/x/a.json"))
               (document_of Inputs.title_only (JStr (lit "dump/x/a.json")))], inr tt)
  /\ dir_item (MoreInputs.nested MoreInputs.falsy_ids_text Inputs.title_only_text)
              Inputs.news Inputs.news_a
     = ([Yield (JStr (lit "news/a.json"))
               (document_of MoreInputs.falsy_ids (JStr (lit "news/a.json")))], inr tt).
Proof.
  split; [|split].
  - refine (proj1 (proj1 (@fallback_id_from_names
                     (Inputs.one_file Inputs.title_only_text) Inputs.news
                     (Fixture.to_bytes Inputs.title_only_text) Inputs.title_only _ _)
                   Inputs.news_a _)).
    + vm_compute; reflexivity.
    + split; [reflexivity | left; reflexivity].
    + vm_compute; reflexivity.
  - refine (proj1 (proj1 (proj2 (@fallback_id_from_names
                     (Inputs.mixed Inputs.title_only_text) Inputs.dump_zip
                     (Fixture.to_bytes Inputs.title_only_text) Inputs.title_only _ _))
                   (lit "x/a.json") _ _)).
    + vm_compute; reflexivity.
    + split; [reflexivity | left; reflexivity].
    + vm_compute; reflexivity.
    + vm_compute; reflexivity.
  - refine (proj1 (proj1 (@fallback_id_from_names
                     (MoreInputs.nested MoreInputs.falsy_ids_text Inputs.title_only_text)
                     Inputs.news (Fixture.to_bytes MoreInputs.falsy_ids_text)
                     MoreInputs.falsy_ids _ _)
                   Inputs.news_a _)).
    + vm_compute; reflexivity.
    + split; [reflexivity | right; eexists; split; reflexivity].
    + vm_compute; reflexivity.
Defined.

(** C2 as stated fails for a single JSON file: the file [data/a.json]
    holding [{"title": "T"}] has neither identifier, and the id yielded
    is the bare file name [a.json], which is no container name joined
    with the item's name. *)
Lemma lone_file_id_has_no_container :
  exists raw doc,
    read_file (Inputs.mixed Inputs.title_only_text) Inputs.lone = inr raw /\
    json_loads (Inputs.mixed Inputs.title_only_text)
               (decode (Inputs.mixed Inputs.title_only_text) raw)
    = inr (JObj Inputs.title_only) /\
    lacks_ids Inputs.title_only /\
    iter_jsons_in_path (Inputs.mixed Inputs.title_only_text) Inputs.lone
    = ([Yield (JStr (name Inputs.lone)) doc], inr tt) /\
    name Inputs.lone = lit "a.json" /\
    forall container : pystr,
      JStr (name Inputs.lone) <> JStr (container ++ slash ++ name Inputs.lone).
Proof.
  eexists. eexists.
  split; [vm_compute; reflexivity|].
  split; [vm_compute; reflexivity|].
  split; [split; [reflexivity | left; reflexivity]|].
  split; [vm_compute; reflexivity|].
  split; [reflexivity|].
  intros container H. injection H as H.
  apply (f_equal (@List.length N)) in H.
  rewrite !length_app in H. simpl in H. lia.
Qed.

(* ================================================================== *)
(** ** Whole sources *)

Section Sources.

Variable w : World.

Lemma for_each_map {A B} (f : A -> B) (l : list A) (body : B -> M unit) :
  for_each (map f l) body = for_each l (fun x => body (f x)).
Proof. induction l as [|x l IH]; simpl; [reflexivity|]. now rewrite IH. Qed.

Lemma insert_length (x : Path) (l : list Path) :
  length (insert x l) = S (length l).
Proof.
  induction l as [|y l IH]; simpl; [reflexivity|].
  destruct (path_ltb y x); simpl; now rewrite ?IH.
Qed.

Lemma sorted_length (l : list Path) : length (sorted l) = length l.
Proof.
  induction l as [|x l IH]; simpl; [reflexivity|].
  now rewrite insert_length, IH.
Qed.

Lemma for_each_members (path : Path) (members : list pystr) :
  for_each members (zip_item w path)
  = for_each (filter (fun m => endswith (lower m) (lit ".json")) members)
             (fun m => item w (zip_candidate w path m)).
Proof.
  induction members as [|m r IH]; simpl; [reflexivity|].
  destruct (endswith (lower m) (lit ".json")) eqn:E.
  - simpl. now rewrite zip_item_candidate, IH.
  - unfold zip_item at 1. rewrite E. simpl negb. cbv iota.
    now rewrite bind_ret.
Qed.

(** A supported source is a loop over its candidates. *)
Lemma iter_over_candidates (path : Path) :
  opens w path ->
  iter_jsons_in_path w path = for_each (candidates w path) (item w)
  \/ (candidates w path = [] /\
      iter_jsons_in_path w path
      = print (lit "Skipping unsupported path type: " ++ path_str path)).
Proof.
  intros Ho. unfold iter_jsons_in_path, candidates, opens in *.
  destruct (is_dir w path).
  - left. now rewrite for_each_map.
  - destruct (str_eqb (lower (suffix path)) (lit ".zip")).
    + left. destruct Ho as [members ->]; auto.
      rewrite bind_lift_inr, for_each_map. apply for_each_members.
    + destruct (is_file w path && str_eqb (lower (suffix path)) (lit ".json")).
      * left. simpl. rewrite file_item_candidate.
        unfold bind.
        destruct (item w (file_candidate w path)) as [t [e|[]]]; simpl;
          rewrite ?app_nil_r; reflexivity.
      * right. auto.
Qed.

Lemma yields_of_yield_events (prs : list (value * value)) :
  yields (map yield_event prs) = prs.
Proof.
  induction prs as [|[i d] r IH]; simpl; [reflexivity|]. now rewrite IH.
Qed.

Lemma prints_of_yield_events (prs : list (value * value)) :
  prints (map yield_event prs) = [].
Proof. induction prs as [|[i d] r IH]; simpl; auto. Qed.

(** A run of well-formed items: one pair each, nothing printed. *)
Lemma for_each_well_formed (cs : list candidate) :
  Forall (well_formed w) cs ->
  exists prs,
    for_each cs (item w) = (map yield_event prs, inr tt) /\
    Forall2 (yielded w) cs prs.
Proof.
  induction 1 as [|c cs Hc _ [prs [Hrun Hall]]].
  - exists []. split; [reflexivity | constructor].
  - destruct (item_well_formed Hc) as [pr [Hitem Hy]].
    exists (pr :: prs). split; [|now constructor].
    simpl. rewrite Hitem. unfold bind. now rewrite Hrun.
Qed.

(** The same with one corrupt item somewhere in the run. *)
Lemma for_each_one_corrupt (pre post : list candidate) (c : candidate) (e : exn) :
  Forall (well_formed w) pre ->
  corrupt w c e ->
  Forall (well_formed w) post ->
  exists prs1 prs2,
    for_each (pre ++ c :: post) (item w)
    = (map yield_event prs1 ++ Print (diagnostic c e) :: map yield_event prs2, inr tt)
    /\ Forall2 (yielded w) pre prs1 /\ Forall2 (yielded w) post prs2.
Proof.
  intros Hpre Hc Hpost.
  induction Hpre as [|c0 pre Hc0 _ [prs1 [prs2 [Hrun [H1 H2]]]]].
  - destruct (for_each_well_formed Hpost) as [prs2 [Hrun H2]].
    exists [], prs2. split; [|split; [constructor | assumption]].
    simpl. rewrite (item_corrupt Hc). unfold bind. now rewrite Hrun.
  - destruct (item_well_formed Hc0) as [pr [Hitem Hy]].
    exists (pr :: prs1), prs2. split; [|split; [now constructor | assumption]].
    simpl. rewrite Hitem. unfold bind. now rewrite Hrun.
Qed.

End Sources.


Ltac well_formed_by_evaluation :=
  eexists; eexists;
  split; [vm_compute; reflexivity | split; vm_compute; reflexivity].



(** C5, as amended.  In a directory of three JSON files of which one
    cannot be read or parsed and the other two are well formed (they
    parse to objects whose ['thread'], where the id chain gets to it, is
    absent or an object), wherever the corrupt one comes in the sorted
    order, extraction ends normally, yields exactly two pairs, and prints
    exactly one line, which names the corrupt file and the failure. *)
Theorem corrupt_item_is_skipped (w : World) (path : Path) (pre post : list Path)
    (c : Path) (e : exn) :
  is_dir w path = true ->
  length (rglob_json w path) = 3%nat ->
  sorted (rglob_json w path) = pre ++ c :: post ->
  corrupt w (dir_candidate w path c) e ->
  Forall (fun p => well_formed w (dir_candidate w path p)) (pre ++ post) ->
  exists t,
    iter_jsons_in_path w path = (t, inr tt) /\
    length (yields t) = 2%nat /\
    prints t = [lit "Failed reading " ++ path_str c ++ lit ": " ++ exn_str e].
Proof.
  intros Hd Hn Hs Hc Hw.
  apply Forall_app in Hw as [Hpre Hpost].
  destruct (@for_each_one_corrupt w (map (dir_candidate w path) pre)
              (map (dir_candidate w path) post) (dir_candidate w path c) e)
    as [prs1 [prs2 [Hrun [H1 H2]]]];
    [now apply Forall_map | exact Hc | now apply Forall_map |].
  exists (map yield_event prs1
          ++ Print (diagnostic (dir_candidate w path c) e) :: map yield_event prs2).
  split; [|split].
  - unfold iter_jsons_in_path. rewrite Hd, Hs.
    change (dir_item w path) with (fun p => item w (dir_candidate w path p)).
    rewrite <- (for_each_map (dir_candidate w path)), map_app. exact Hrun.
  - rewrite yields_app. simpl. rewrite !yields_of_yield_events, length_app.
    apply Forall2_length in H1, H2. rewrite length_map in H1, H2.
    rewrite <- H1, <- H2.
    rewrite <- (sorted_length (rglob_json w path)), Hs, length_app in Hn.
    simpl in Hn. lia.
  - rewrite prints_app. simpl. now rewrite !prints_of_yield_events.
Qed.

Lemma corrupt_item_is_skipped_witness :
  exists t,
    iter_jsons_in_path
      (Inputs.three_files Inputs.both_ids_text Inputs.broken_text Inputs.uuid_text_text)
      Inputs.news = (t, inr tt) /\
    length (yields t) = 2%nat /\
    prints t = [lit "Failed reading " ++ path_str Inputs.news_b ++ lit ": "
                ++ exn_str Inputs.broken_error].
Proof.
  apply (@corrupt_item_is_skipped
           (Inputs.three_files Inputs.both_ids_text Inputs.broken_text
                               Inputs.uuid_text_text)
           Inputs.news [Inputs.news_a] [Inputs.news_c] Inputs.news_b Inputs.broken_error).
  - vm_compute; reflexivity.
  - vm_compute; reflexivity.
  - vm_compute; reflexivity.
  - right. eexists. split; vm_compute; reflexivity.
  - apply Forall_cons; [well_formed_by_evaluation|].
    apply Forall_cons; [well_formed_by_evaluation|].
    apply Forall_nil.
Defined.

(** C5 as stated fails: of three files, [b.json] is not JSON and the
    other two hold valid JSON, [[1, 2]] and an object; the list has no
    [get], so only one pair is yielded and two diagnostics are printed. *)
Lemma valid_array_item_is_skipped_too :
  length (rglob_json (Inputs.three_files Inputs.array_text Inputs.broken_text
                                         Inputs.uuid_title_text) Inputs.news) = 3%nat /\
  parsed (Inputs.three_files Inputs.array_text Inputs.broken_text Inputs.uuid_title_text)
         Inputs.news_a = inr (JArr [JInt 1; JInt 2]) /\
  parsed (Inputs.three_files Inputs.array_text Inputs.broken_text Inputs.uuid_title_text)
         Inputs.news_b = inl Inputs.broken_error /\
  parsed (Inputs.three_files Inputs.array_text Inputs.broken_text Inputs.uuid_title_text)
         Inputs.news_c = inr (JObj Inputs.uuid_title) /\
  snd (iter_jsons_in_path
         (Inputs.three_files Inputs.array_text Inputs.broken_text Inputs.uuid_title_text)
         Inputs.news) = inr tt /\
  length (yields (fst (iter_jsons_in_path
         (Inputs.three_files Inputs.array_text Inputs.broken_text Inputs.uuid_title_text)
         Inputs.news))) = 1%nat /\
  length (prints (fst (iter_jsons_in_path
         (Inputs.three_files Inputs.array_text Inputs.broken_text Inputs.uuid_title_text)
         Inputs.news))) = 2%nat.
Proof. repeat split; vm_compute; reflexivity. Qed.

(* ================================================================== *)
(** ** The batch loader *)

Lemma len_app {A} (a b : list A) : len (a ++ b) = len a + len b.
Proof. unfold len. rewrite length_app. lia. Qed.

Lemma len_nonneg {A} (a : list A) : 0 <= len a.
Proof. unfold len. lia. Qed.

Lemma batches_concat (B : Z) (l acc : list value) :
  concat (batches B acc l) = acc ++ l.
Proof.
  revert acc. induction l as [|a l IH]; intros acc; simpl.
  - destruct acc; simpl; now rewrite ?app_nil_r.
  - destruct (len (acc ++ [a]) >=? B); simpl; rewrite IH; simpl;
      now rewrite <- app_assoc.
Qed.

(** Below the batch size nothing is submitted: the items accumulate. *)
Lemma batches_fill (B : Z) (l acc rest : list value) :
  len acc + len l < B ->
  batches B acc (l ++ rest) = batches B (acc ++ l) rest.
Proof.
  revert acc. induction l as [|a l IH]; intros acc H; simpl.
  - now rewrite app_nil_r.
  - change (a :: l) with ([a] ++ l) in H. rewrite len_app in H.
    pose proof (len_nonneg l).
    assert (E : (len (acc ++ [a]) >=? B) = false).
    { rewrite len_app, Z.geb_leb. apply Z.leb_gt. lia. }
    rewrite E, IH.
    + now rewrite <- app_assoc.
    + rewrite len_app. lia.
Qed.

(** A full batch is submitted as soon as its last item arrives. *)
Lemma batches_full (B : Z) (l rest : list value) :
  1 <= B -> len l = B ->
  batches B [] (l ++ rest) = l :: batches B [] rest.
Proof.
  intros HB Hl.
  destruct (exists_last (l := l)) as [l' [a ->]].
  { intros ->. unfold len in Hl. simpl in Hl. lia. }
  rewrite len_app in Hl. change (len [a]) with 1 in Hl.
  rewrite <- app_assoc. simpl.
  rewrite batches_fill by (change (len (@nil value)) with 0; lia).
  simpl.
  assert (E : (len (l' ++ [a]) >=? B) = true).
  { rewrite len_app, Z.geb_leb. apply Z.leb_le. change (len [a]) with 1. lia. }
  now rewrite E.
Qed.

Lemma batches_single (B : Z) (x : value) : batches B [] [x] = [[x]].
Proof. simpl. now destruct (len [x] >=? B). Qed.

(** The batches of [2B+1] items: two of [B] and one of one. *)
Lemma batches_two_and_one (B : Z) (l : list value) :
  1 <= B -> len l = 2 * B + 1 ->
  exists b1 b2 x,
    batches B [] l = [b1; b2; [x]] /\ len b1 = B /\ len b2 = B /\
    l = b1 ++ b2 ++ [x].
Proof.
  intros HB Hl.
  set (n := Z.to_nat B).
  assert (Hn : Z.of_nat n = B) by (unfold n; lia).
  unfold len in Hl.
  set (b1 := firstn n l). set (r1 := skipn n l).
  set (b2 := firstn n r1). set (r2 := skipn n r1).
  assert (E1 : l = b1 ++ r1) by (symmetry; apply firstn_skipn).
  assert (E2 : r1 = b2 ++ r2) by (symmetry; apply firstn_skipn).
  assert (L1 : length b1 = n) by (apply firstn_length_le; lia).
  assert (Lr1 : length r1 = (length l - n)%nat) by apply length_skipn.
  assert (L2 : length b2 = n) by (apply firstn_length_le; lia).
  assert (Lr2 : length r2 = 1%nat).
  { unfold r2. rewrite length_skipn. lia. }
  destruct r2 as [|x [|y r2]]; try discriminate.
  exists b1, b2, x.
  split; [|split; [|split]].
  - rewrite E1, E2.
    rewrite batches_full by (unfold len; lia).
    rewrite batches_full by (unfold len; lia).
    now rewrite batches_single.
  - unfold len. lia.
  - unfold len. lia.
  - now rewrite <- E2.
Qed.

Section LoaderFacts.

Variable es : EsClient.
Variable index_name : pystr.
Variable B : Z.
Hypothesis submissions_succeed : forall hist actions, es_bulk es hist actions = None.

Let act (pr : value * value) : value := action index_name (fst pr) (snd pr).

Lemma helpers_bulk_succeeds hist actions :
  helpers_bulk es hist actions = ([Bulk actions], inr tt).
Proof. unfold helpers_bulk. now rewrite submissions_succeed. Qed.

(** The loop submits the full batches and keeps the rest; it counts what
    it submits and passes on what the iterator prints. *)
Lemma bulk_loop_batches (evs : list event) :
  bulks evs = [] ->
  forall st, exists t st',
    bulk_loop es index_name B evs st = (t, inr st') /\
    bulks t ++ flush (st_actions st')
    = batches B (st_actions st) (map act (yields evs)) /\
    st_total st' + len (st_actions st')
    = st_total st + len (st_actions st) + len (yields evs) /\
    prints t = prints evs.
Proof.
  induction evs as [|[line|doc_id doc|a] evs IH]; intros Hb st; simpl in Hb.
  - exists [], st. simpl. repeat split; try lia. 
    unfold len. simpl. lia.
  - destruct (IH Hb st) as [t [st' [Hrun [Hbat [Htot Hpr]]]]].
    exists (Print line :: t), st'. cbn [bulk_loop].
    rewrite bind_event, Hrun. simpl. repeat split; auto. now rewrite Hpr.
  - cbn [bulk_loop yields map batches].
    change (act (doc_id, doc)) with (action index_name doc_id doc).
    destruct (len (st_actions st ++ [action index_name doc_id doc]) >=? B).
    + destruct (IH Hb (mkState [] (st_total st
                         + len (st_actions st ++ [action index_name doc_id doc]))
                        (st_hist st ++ [st_actions st ++ [action index_name doc_id doc]])))
        as [t [st' [Hrun [Hbat [Htot Hpr]]]]].
      exists (Bulk (st_actions st ++ [action index_name doc_id doc]) :: t), st'.
      rewrite helpers_bulk_succeeds, bind_event, Hrun. simpl in *.
      repeat split; auto.
      * now rewrite Hbat.
      * rewrite Htot, len_app. unfold len. simpl length. lia.
    + destruct (IH Hb (mkState (st_actions st ++ [action index_name doc_id doc])
                        (st_total st) (st_hist st)))
        as [t [st' [Hrun [Hbat [Htot Hpr]]]]].
      exists t, st'. simpl in *. repeat split; auto.
      rewrite Htot, len_app. unfold len. simpl length. lia.
  - discriminate.
Qed.

(** The whole loader: the batches are those of the actions of the
    yielded pairs, and the result is their number. *)
Lemma bulk_index_run (evs : list event) :
  bulks evs = [] ->
  exists t,
    bulk_index es index_name B (evs, inr tt) = (t, inr (len (yields evs))) /\
    bulks t = batches B [] (map act (yields evs)) /\
    prints t = prints evs.
Proof.
  intros Hb.
  destruct (bulk_loop_batches evs Hb (mkState [] 0 []))
    as [t [st' [Hrun [Hbat [Htot Hpr]]]]].
  simpl in Hbat, Htot. change (len (@nil value)) with 0 in Htot.
  unfold bulk_index. rewrite Hrun. unfold bind at 1.
  rewrite bind_lift_inr.
  destruct (st_actions st') as [|a acts] eqn:Ea.
  - exists (t ++ []). change (len (@nil value)) with 0 in Htot.
    unfold ret. replace (st_total st') with (len (yields evs)) by lia.
    repeat split.
    + simpl in Hbat. now rewrite !app_nil_r in *.
    + now rewrite app_nil_r.
  - exists (t ++ [Bulk (a :: acts)]).
    rewrite helpers_bulk_succeeds, bind_event. simpl fst. simpl snd.
    unfold ret. simpl fst. simpl snd.
    replace (st_total st' + len (a :: acts)) with (len (yields evs)) by lia.
    repeat split.
    + rewrite bulks_app. simpl. exact Hbat.
    + rewrite prints_app. simpl. now rewrite app_nil_r.
Qed.

End LoaderFacts.

(** C4.  When every bulk submission succeeds, the loader returns the
    number of pairs of the stream, which is the number of documents in
    the batches it submitted, all of them and in order; and for a batch
    size [B >= 1] and a stream of exactly [2B+1] pairs it submits
    exactly three batches, the first two of [B] documents and the last
    of one. *)
Theorem bulk_index_batches (es : EsClient) (index_name : pystr) (B : Z)
    (evs : list event) :
  (forall hist actions, es_bulk es hist actions = None) ->
  bulks evs = [] ->
  snd (bulk_index es index_name B (evs, inr tt)) = inr (len (yields evs)) /\
  concat (bulks (fst (bulk_index es index_name B (evs, inr tt))))
  = map (fun pr => action index_name (fst pr) (snd pr)) (yields evs) /\
  len (concat (bulks (fst (bulk_index es index_name B (evs, inr tt)))))
  = len (yields evs) /\
  (1 <= B -> len (yields evs) = 2 * B + 1 ->
   exists b1 b2 x,
     bulks (fst (bulk_index es index_name B (evs, inr tt))) = [b1; b2; [x]] /\
     len b1 = B /\ len b2 = B /\
     map (fun pr => action index_name (fst pr) (snd pr)) (yields evs)
     = b1 ++ b2 ++ [x]).
Proof.
  intros Hok Hb.
  destruct (@bulk_index_run es index_name B Hok evs Hb) as [t [Hrun [Hbat Hpr]]].
  rewrite Hrun. simpl fst. simpl snd. rewrite Hbat.
  split; [reflexivity|]. rewrite batches_concat. simpl app.
  split; [reflexivity|]. split.
  - unfold len. now rewrite length_map.
  - intros HB Hlen. apply batches_two_and_one; auto.
    unfold len in *. now rewrite length_map.
Qed.

Lemma bulk_index_batches_witness :
  snd (bulk_index (Fixture.es_ok JNull) INDEX_NAME 2 (Inputs.iter_five)) = inr 5 /\
  exists b1 b2 x,
    bulks (fst (bulk_index (Fixture.es_ok JNull) INDEX_NAME 2 Inputs.iter_five))
    = [b1; b2; [x]] /\ len b1 = 2 /\ len b2 = 2.
Proof.
  destruct (@bulk_index_batches (Fixture.es_ok JNull) INDEX_NAME 2
              (fst Inputs.iter_five)) as [Hret [_ [_ Hthree]]].
  - reflexivity.
  - reflexivity.
  - split; [exact Hret|].
    destruct Hthree as [b1 [b2 [x [H1 [H2 [H3 _]]]]]].
    + lia.
    + reflexivity.
    + exists b1, b2, x. auto.
Defined.

(* ================================================================== *)
(** ** The query engine *)

(** C6.  The search operation never raises: when the client's call
    raises, whatever the query text, index name and size, it prints one
    diagnostic with the exception's text and returns [None]; when the
    call returns, it returns that result and prints nothing. *)
Theorem search_never_raises (es : EsClient) (query_text index_name : pystr) (size : Z) :
  (exists t v, search_boolean_es es query_text index_name size = (t, inr v)) /\
  (forall e, es_search es index_name (query_body query_text) size = inl e ->
     search_boolean_es es query_text index_name size
     = ([Print (lit "Error querying Elasticsearch: " ++ exn_str e)], inr JNull)) /\
  (forall res, es_search es index_name (query_body query_text) size = inr res ->
     search_boolean_es es query_text index_name size = ([], inr res)).
Proof.
  unfold search_boolean_es.
  destruct (es_search es index_name (query_body query_text) size) as [e|res].
  - split; [|split].
    + eexists. eexists. reflexivity.
    + intros e' [= <-]. reflexivity.
    + discriminate.
  - split; [|split].
    + eexists. eexists. reflexivity.
    + discriminate.
    + intros res' [= <-]. reflexivity.
Qed.

Lemma search_never_raises_witness :
  search_boolean_es Fixture.es_down (lit "title:storm AND rain") INDEX_NAME
                    DEFAULT_SEARCH_SIZE
  = ([Print (lit "Error querying Elasticsearch: Connection refused")], inr JNull).
Proof.
  exact (proj1 (proj2 (search_never_raises Fixture.es_down (lit "title:storm AND rain")
                         INDEX_NAME DEFAULT_SEARCH_SIZE))
               Fixture.connection_error eq_refl).
Defined.

(* ================================================================== *)
(** ** The result presenter *)

Lemma bind_always_raises {A B} (m : M A) (k : A -> M B) :
  (forall a, exists t e, k a = (t, inl e)) ->
  exists t e, bind m k = (t, inl e).
Proof.
  intros H. destruct m as [t [e|a]]; simpl.
  - eauto.
  - destruct (H a) as [t' [e' ->]]. eauto.
Qed.

Lemma bind_returned {A B} (t : list event) (a : A) (k : A -> M B) :
  bind ((t, inr a) : M A) k = (t ++ fst (k a), snd (k a)).
Proof. unfold bind. now destruct (k a). Qed.

Section PresenterFacts.

Variable repr : value -> pystr.

Lemma print_field_shown hit src label field placeholder :
  getitem hit (lit "_source") = inr (JObj src) ->
  print_field repr hit label field placeholder
  = ([Print (lit label ++ py_str repr (shown src field placeholder))], inr tt).
Proof.
  intros Hs. unfold print_field. rewrite Hs, bind_lift_inr.
  unfold get. now rewrite bind_lift_inr.
Qed.

(** A hit with a score, an id and a source object prints its first four
    lines; the rest depends on the snippet. *)
Lemma display_hit_steps i hit score doc_id src :
  getitem hit (lit "_score") = inr score ->
  getitem hit (lit "_id") = inr doc_id ->
  getitem hit (lit "_source") = inr (JObj src) ->
  display_hit repr i hit
  = match snippet (text_of src) with
    | inl e => (hit_head repr i score doc_id src, inl e)
    | inr snip => (hit_head repr i score doc_id src ++ hit_tail repr snip src, inr tt)
    end.
Proof.
  intros Hsc Hid Hsrc. unfold display_hit.
  rewrite !(fun l f p => @print_field_shown hit src l f p Hsrc), Hsc, Hid, Hsrc.
  unfold print, get.
  rewrite bind_event, bind_lift_inr, bind_event, bind_lift_inr, bind_event, bind_event.
  rewrite bind_lift_inr, bind_lift_inr.
  change (match lookup (lit "text") src with Some x => x | None => JStr [] end)
    with (text_of src).
  destruct (snippet (text_of src)) as [e|snip].
  - reflexivity.
  - rewrite bind_lift_inr. reflexivity.
Qed.

Lemma getitem_truthy v key x : getitem v key = inr x -> truthy v = true.
Proof.
  destruct v as [| | | | | |[|kv kvs]]; simpl; try discriminate; reflexivity.
Qed.

(** A non-empty result set: the total, the header, then the hits. *)
Lemma display_steps search_results query_text :
  truthy search_results = true ->
  display_search_results repr search_results query_text
  = match total_hits search_results with
    | inl e => ([], inl e)
    | inr total =>
        (header repr total query_text ++ fst (hits_report repr search_results),
         snd (hits_report repr search_results))
    end.
Proof.
  intros Ht. unfold display_search_results. rewrite Ht. simpl negb. cbv iota.
  destruct (total_hits search_results) as [e|total]; [reflexivity|].
  rewrite bind_lift_inr. unfold print. rewrite !bind_event.
  reflexivity.
Qed.

Lemma hits_report_steps search_results hits l :
  getitem search_results (lit "hits") = inr hits ->
  getitem hits (lit "hits") = inr (JArr l) ->
  hits_report repr search_results = display_hits repr 1 l.
Proof.
  intros H1 H2. unfold hits_report.
  rewrite H1, bind_lift_inr, H2, bind_lift_inr. cbn [iterate].
  now rewrite bind_lift_inr.
Qed.

(** The total in either form. *)
Lemma total_hits_bare search_results hits n :
  getitem search_results (lit "hits") = inr hits ->
  getitem hits (lit "total") = inr (JInt n) ->
  total_hits search_results = inr (JInt n).
Proof. intros H1 H2. unfold total_hits. now rewrite H1, H2. Qed.

Lemma total_hits_object search_results hits d v :
  getitem search_results (lit "hits") = inr hits ->
  getitem hits (lit "total") = inr (JObj d) ->
  lookup (lit "value") d = Some v ->
  total_hits search_results = inr v.
Proof.
  intros H1 H2 H3. unfold total_hits. rewrite H1, H2. simpl. now rewrite H3.
Qed.

(** Hits that print in full are followed by the rest of the loop. *)
Lemma display_hits_app pre l :
  Forall (displayable repr) pre ->
  forall i, exists t,
    display_hits repr i pre = (t, inr tt) /\
    display_hits repr i (pre ++ l)
    = (t ++ fst (display_hits repr (i + len pre) l),
       snd (display_hits repr (i + len pre) l)).
Proof.
  induction 1 as [|h pre Hh _ IH]; intros i.
  - exists []. change (len (@nil value)) with 0. rewrite Z.add_0_r.
    split; [reflexivity|]. simpl. now destruct (display_hits repr i l).
  - destruct (Hh i) as [th Eh]. destruct (IH (i + 1)) as [t [E1 E2]].
    exists (th ++ t). simpl. rewrite Eh, !bind_returned, E1, E2. simpl fst. simpl snd.
    replace (i + 1 + len pre) with (i + len (h :: pre))
      by (unfold len; simpl length; lia).
    split; [reflexivity|]. now rewrite app_assoc.
Qed.

(** A hit whose source maps ['text'] to [None] never prints in full. *)
Lemma display_hit_null_text i hit src :
  getitem hit (lit "_source") = inr (JObj src) ->
  lookup (lit "text") src = Some JNull ->
  exists t e, display_hit repr i hit = (t, inl e).
Proof.
  intros Hsrc Htext.
  destruct (getitem hit (lit "_score")) as [e|score] eqn:Hsc.
  { unfold display_hit. rewrite Hsc. eexists. eexists. reflexivity. }
  destruct (getitem hit (lit "_id")) as [e|doc_id] eqn:Hid.
  { unfold display_hit. rewrite Hsc, Hid. eexists. eexists. reflexivity. }
  rewrite (@display_hit_steps i hit score doc_id src Hsc Hid Hsrc).
  unfold text_of. rewrite Htext.
  eexists. eexists. reflexivity.
Qed.

Lemma display_hits_null_text pre hit post src :
  getitem hit (lit "_source") = inr (JObj src) ->
  lookup (lit "text") src = Some JNull ->
  forall i, exists t e, display_hits repr i (pre ++ hit :: post) = (t, inl e).
Proof.
  intros Hsrc Htext. induction pre as [|h pre IH]; intros i; simpl.
  - destruct (@display_hit_null_text i hit src Hsrc Htext) as [t [e ->]].
    eexists. eexists. reflexivity.
  - apply bind_always_raises. intros _. apply IH.
Qed.

End PresenterFacts.



(** C9.  A result set whose total is the bare integer [n] and one whose
    total is an object holding [n] under ['value'] give the same total,
    and the third line of either report is [Total hits: n]; with 5, the
    line reads [Total hits: 5]. *)
Theorem total_hits_either_form (repr : value -> pystr) (query_text : pystr)
    (bare wrapped hits1 hits2 : value) (d : list (pystr * value)) (n : Z) :
  getitem bare (lit "hits") = inr hits1 ->
  getitem hits1 (lit "total") = inr (JInt n) ->
  getitem wrapped (lit "hits") = inr hits2 ->
  getitem hits2 (lit "total") = inr (JObj d) ->
  lookup (lit "value") d = Some (JInt n) ->
  total_hits bare = inr (JInt n) /\
  total_hits wrapped = inr (JInt n) /\
  nth 2 (prints (fst (display_search_results repr bare query_text))) []
  = lit "Total hits: " ++ str_of_int n /\
  nth 2 (prints (fst (display_search_results repr wrapped query_text))) []
  = lit "Total hits: " ++ str_of_int n.
Proof.
  intros B1 B2 W1 W2 W3.
  pose proof (@total_hits_bare bare hits1 n B1 B2) as Tb.
  pose proof (@total_hits_object wrapped hits2 d (JInt n) W1 W2 W3) as Tw.
  rewrite (@display_steps repr bare query_text (@getitem_truthy _ _ _ B1)), Tb.
  rewrite (@display_steps repr wrapped query_text (@getitem_truthy _ _ _ W1)), Tw.
  repeat split; auto.
Qed.

Lemma total_hits_either_form_witness :
  nth 2 (prints (fst (display_search_results Inputs.no_repr
                        (Inputs.result_set (JInt 5) []) (lit "storm")))) []
  = lit "Total hits: 5"
  /\ nth 2 (prints (fst (display_search_results Inputs.no_repr
                        (Inputs.result_set (JObj [(lit "value", JInt 5)]) [])
                        (lit "storm")))) []
     = lit "Total hits: 5".
Proof.
  exact (proj2 (proj2 (@total_hits_either_form Inputs.no_repr (lit "storm")
           (Inputs.result_set (JInt 5) [])
           (Inputs.result_set (JObj [(lit "value", JInt 5)]) [])
           _ _ [(lit "value", JInt 5)] 5 eq_refl eq_refl eq_refl eq_refl eq_refl))).
Defined.

Lemma stored_text_is_null (kvs : list (pystr * value)) (doc_id : value) :
  lookup (lit "text") kvs = None ->
  exists dkvs,
    document_of kvs doc_id = JObj dkvs /\ lookup (lit "text") dkvs = Some JNull.
Proof.
  intros H. eexists. split; [reflexivity|].
  rewrite (@document_fields kvs doc_id "text") by (simpl; auto).
  now rewrite H.
Qed.

(** An item that parses to an object without ['text'], and from which an
    id can be taken, is yielded with a document that maps ['text'] to
    [None]. *)
Lemma extracted_text_is_null (w : World) (read : result bytes) (fallback : pystr)
    (raw : bytes) (kvs : list (pystr * value)) :
  read = inr raw ->
  json_loads w (decode w raw) = inr (JObj kvs) ->
  extractable (JObj kvs) = true ->
  lookup (lit "text") kvs = None ->
  exists doc_id dkvs,
    extract_item w read fallback = ([Yield doc_id (JObj dkvs)], inr tt) /\
    lookup (lit "text") dkvs = Some JNull.
Proof.
  intros Hr Hp Hx Ht.
  destruct (@derive_id_total (JObj kvs) fallback Hx) as [doc_id Hi].
  destruct (@stored_text_is_null kvs doc_id Ht) as [dkvs [Hd Hn]].
  exists doc_id, dkvs. split; [|exact Hn].
  rewrite extract_item_steps, Hr, Hp, Hi.
  replace (make_doc (JObj kvs) doc_id) with (@inr exn value (JObj dkvs)); [reflexivity|].
  destruct (make_doc (JObj kvs) doc_id) as [e|doc] eqn:Hm.
  - rewrite make_doc_object in Hm. discriminate.
  - rewrite make_doc_object in Hm. injection Hm as <-. now rewrite Hd.
Qed.

(** A result set with a hit whose source maps ['text'] to [None] makes
    the presenter raise. *)
Lemma display_null_text_raises (repr : value -> pystr) (query_text : pystr)
    (search_results hits hit : value) (pre post : list value)
    (src : list (pystr * value)) :
  getitem search_results (lit "hits") = inr hits ->
  getitem hits (lit "hits") = inr (JArr (pre ++ hit :: post)) ->
  getitem hit (lit "_source") = inr (JObj src) ->
  lookup (lit "text") src = Some JNull ->
  exists t e, display_search_results repr search_results query_text = (t, inl e).
Proof.
  intros Hh Hl Hsrc Htext.
  rewrite (@display_steps repr search_results query_text (@getitem_truthy _ _ _ Hh)).
  rewrite (@hits_report_steps repr search_results hits _ Hh Hl).
  destruct (total_hits search_results) as [e|total];
    [eexists; eexists; reflexivity|].
  destruct (@display_hits_null_text repr pre hit post src Hsrc Htext 1)
    as [t [e ->]].
  eexists. eexists. reflexivity.
Qed.

(** C10.  The extractor itself produces documents the presenter cannot
    show: an item that parses to an object without ['text'], and from
    which an id can be taken, is yielded by [extract_item] with a
    document that maps ['text'] to [None], and every result set that
    holds a hit for that id and document makes the presenter raise.  In
    general, a result set with a hit whose source maps ['text'] to
    [None] makes the presenter raise, whatever else it holds; and when
    the total can be read, the hits before it print in full and the hit
    has a score and an id, the output is the header, the blocks of the
    hits before, and the first four prints of the hit, and the exception
    is the [TypeError] of slicing [None]: the hit's other fields and all
    later hits are never printed. *)
Theorem null_text_aborts_display (repr : value -> pystr) (query_text : pystr)
    (search_results hits hit : value) (pre post : list value)
    (src : list (pystr * value)) :
  getitem search_results (lit "hits") = inr hits ->
  getitem hits (lit "hits") = inr (JArr (pre ++ hit :: post)) ->
  getitem hit (lit "_source") = inr (JObj src) ->
  lookup (lit "text") src = Some JNull ->
  (forall (w : World) (read : result bytes) (fallback : pystr) (raw : bytes)
          (kvs : list (pystr * value)),
     read = inr raw ->
     json_loads w (decode w raw) = inr (JObj kvs) ->
     extractable (JObj kvs) = true ->
     lookup (lit "text") kvs = None ->
     exists doc_id dkvs,
       extract_item w read fallback = ([Yield doc_id (JObj dkvs)], inr tt) /\
       lookup (lit "text") dkvs = Some JNull /\
       forall (score results found : value) (before after : list value),
         getitem results (lit "hits") = inr found ->
         getitem found (lit "hits")
         = inr (JArr (before ++ hit_of score doc_id (JObj dkvs) :: after)) ->
         exists t e, display_search_results repr results query_text = (t, inl e)) /\
  (exists t e, display_search_results repr search_results query_text = (t, inl e)) /\
  (forall total score doc_id before,
     total_hits search_results = inr total ->
     Forall (displayable repr) pre ->
     display_hits repr 1 pre = (before, inr tt) ->
     getitem hit (lit "_score") = inr score ->
     getitem hit (lit "_id") = inr doc_id ->
     display_search_results repr search_results query_text
     = (header repr total query_text ++ before
        ++ hit_head repr (1 + len pre) score doc_id src,
        inl (TypeError (lit "'NoneType' object is not subscriptable")))).
Proof.
  intros Hh Hl Hsrc Htext.
  split; [|split].
  - intros w read fallback raw kvs Hr Hp Hx Ht.
    destruct (@extracted_text_is_null w read fallback raw kvs Hr Hp Hx Ht)
      as [doc_id [dkvs [Hy Hn]]].
    exists doc_id, dkvs. split; [exact Hy|]. split; [exact Hn|].
    intros score results found before after Hf Hb.
    apply (@display_null_text_raises repr query_text results found
             (hit_of score doc_id (JObj dkvs)) before after dkvs Hf Hb eq_refl Hn).
  - apply (@display_null_text_raises repr query_text search_results hits hit
             pre post src Hh Hl Hsrc Htext).
  - rewrite (@display_steps repr search_results query_text (@getitem_truthy _ _ _ Hh)).
    rewrite (@hits_report_steps repr search_results hits _ Hh Hl).
    intros total score doc_id before Htot Hpre Hbefore Hsc Hid.
    rewrite Htot.
    destruct (@display_hits_app repr pre (hit :: post) Hpre 1) as [t [E1 E2]].
    rewrite Hbefore in E1. injection E1 as <-.
    rewrite E2. cbn [display_hits].
    rewrite (@display_hit_steps repr (1 + len pre) hit score doc_id src Hsc Hid Hsrc).
    unfold text_of. rewrite Htext. reflexivity.
Qed.

Lemma text_hit_displayable (repr : value -> pystr) (n : nat) :
  displayable repr (Inputs.text_hit n).
Proof.
  intros i.
  rewrite (@display_hit_steps repr i (Inputs.text_hit n) (JFloat 1.5) (JStr (lit "u1"))
             (Inputs.text_source n) eq_refl eq_refl eq_refl).
  eexists. reflexivity.
Qed.

Lemma null_text_aborts_display_witness :
  MoreInputs.extracted_hits (JFloat 1.5)
  = [hit_of (JFloat 1.5) (JStr (lit "u3"))
       (JObj [(lit "uuid", JStr (lit "u3")); (lit "title", JStr (lit "News"));
              (lit "text", JNull); (lit "author", JNull); (lit "published", JNull);
              (lit "language", JNull); (lit "sentiment", JNull);
              (lit "categories", JNull); (lit "url", JNull)])]
  /\ display_search_results Inputs.no_repr
       (Inputs.result_set (JInt 3)
          ([Inputs.text_hit 5] ++ MoreInputs.extracted_hits (JFloat 1.5)
           ++ [Inputs.text_hit 7]))
       (lit "storm")
     = ([Print (newline ++ rule "=");
         Print (lit "Query: storm");
         Print (lit "Total hits: 3");
         Print (rule "=" ++ newline);
         Print (lit "Result #1");
         Print (lit "Score : ?");
         Print (lit "ID    : u1");
         Print (lit "Title : (no title)");
         Print (lit "Snippet:" ++ newline ++ lit "xxxxx");
         Print (lit "Author: (no author)");
         Print (lit "Published: (no date)");
         Print (lit "Language: (no language)");
         Print (lit "URL: (no url)");
         Print (lit "Categories: (no categories)");
         Print (rule "-" ++ newline);
         Print (lit "Result #2");
         Print (lit "Score : ?");
         Print (lit "ID    : u3");
         Print (lit "Title : News")],
        inl (TypeError (lit "'NoneType' object is not subscriptable"))).
Proof.
  split; [vm_compute; reflexivity|].
  refine (eq_trans
    (proj2 (proj2 (@null_text_aborts_display Inputs.no_repr (lit "storm")
       (Inputs.result_set (JInt 3)
          ([Inputs.text_hit 5] ++ MoreInputs.extracted_hits (JFloat 1.5)
           ++ [Inputs.text_hit 7]))
       _ (hit_of (JFloat 1.5) (JStr (lit "u3"))
            (snd (nth 0 MoreInputs.extracted (JNull, JNull))))
       [Inputs.text_hit 5] [Inputs.text_hit 7] _
       eq_refl eq_refl eq_refl eq_refl))
     (JInt 3) (JFloat 1.5) (JStr (lit "u3")) _ eq_refl _ _ eq_refl eq_refl) _).
  - apply Forall_cons; [apply text_hit_displayable | apply Forall_nil].
  - vm_compute. reflexivity.
  - vm_compute. reflexivity.
Defined.

(* ================================================================== *)
(** ** Placeholders and stored nulls *)

(** A key stored with [None] is shown as [None], not as the placeholder. *)
Lemma print_field_null (repr : value -> pystr) (hit : value)
    (src : list (pystr * value)) (label field placeholder : string) :
  getitem hit (lit "_source") = inr (JObj src) ->
  lookup (lit field) src = Some JNull ->
  print_field repr hit label field placeholder
  = ([Print (lit label ++ lit "None")], inr tt).
Proof.
  intros Hsrc Hf. rewrite (@print_field_shown repr hit src label field placeholder Hsrc).
  unfold shown. now rewrite Hf.
Qed.

(** C8, the code at a failing input.  The file [{"uuid": "u2", "text":
    "hello"}] is extracted, its document comes back as the one hit of a
    result set, and the report is printed: title, author, date, language,
    url and categories, absent from the source, are each shown as [None];
    no placeholder appears. *)
Theorem stored_null_is_shown_as_None (repr : value -> pystr) :
  exists doc_id doc,
    yields (fst (iter_jsons_in_path (Inputs.one_file Inputs.uuid_text_text) Inputs.news))
    = [(doc_id, doc)] /\
    display_search_results repr
      (Inputs.result_set (JInt 1) [hit_of (JInt 7) doc_id doc]) (lit "hello")
    = (header repr (JInt 1) (lit "hello")
       ++ [Print (lit "Result #1");
           Print (lit "Score : 7");
           Print (lit "ID    : u2");
           Print (lit "Title : None");
           Print (lit "Snippet:" ++ newline ++ lit "hello");
           Print (lit "Author: None");
           Print (lit "Published: None");
           Print (lit "Language: None");
           Print (lit "URL: None");
           Print (lit "Categories: None");
           Print (rule "-" ++ newline)],
       inr tt).
Proof.
  eexists. eexists. split.
  - vm_compute. reflexivity.
  - vm_compute. reflexivity.
Qed.

(* ================================================================== *)
(** ** More on the extractor *)

Ltac id_chain_cases :=
  repeat match goal with
  | |- context [lookup ?k (_ :: _)] => fail 1
  | |- context [match lookup ?k ?l with Some _ => _ | None => _ end] =>
      destruct (lookup k l) as [[| | | | | |?]|] eqn:?
  | |- context [if truthy ?v then _ else _] => destruct (truthy v) eqn:?
  end.

Section ExtractorOutcomes.

Variable w : World.

(** A candidate never raises: it leaves its pair or its diagnostic. *)
Lemma item_outcome (c : candidate) :
  exists ev, item w c = ([ev], inr tt) /\ outcome w c ev.
Proof.
  unfold item, outcome. rewrite extract_item_steps.
  destruct (c_read c) as [e|raw] eqn:Hr.
  { exists (Print (diagnostic c e)). split; [reflexivity|].
    right. exists e. split; reflexivity. }
  destruct (json_loads w (decode w raw)) as [e|data] eqn:Hp.
  { exists (Print (diagnostic c e)). split; [reflexivity|].
    right. exists e. split; reflexivity. }
  destruct (derive_id data (c_fallback c)) as [e|doc_id] eqn:Hi.
  { exists (Print (diagnostic c e)). split; [reflexivity|].
    right. exists e. split; reflexivity. }
  destruct data as [| | | | | |kvs]; try discriminate.
  rewrite make_doc_object.
  exists (Yield doc_id (document_of kvs doc_id)). split; [reflexivity|].
  left. exists raw, kvs, doc_id. auto.
Qed.

Lemma for_each_outcomes (cs : list candidate) :
  exists t, for_each cs (item w) = (t, inr tt) /\ Forall2 (outcome w) cs t.
Proof.
  induction cs as [|c cs [t [Hrun Hall]]].
  - exists []. split; [reflexivity | constructor].
  - destruct (item_outcome c) as [ev [Hitem Hev]].
    exists (ev :: t). split; [|now constructor].
    simpl. rewrite Hitem. unfold bind. now rewrite Hrun.
Qed.

Lemma outcomes_count (cs : list candidate) (t : list event) :
  Forall2 (outcome w) cs t ->
  bulks t = [] /\ (length (yields t) + length (prints t) = length cs)%nat.
Proof.
  induction 1 as [|c ev cs t Hev _ [Hb Hn]]; [split; reflexivity|].
  destruct Hev as [[raw [kvs [doc_id [_ [_ [_ ->]]]]]]|[e [_ ->]]]; simpl;
    split; auto; lia.
Qed.

(** The trace of a supported source is the outcomes of its candidates;
    when an archive cannot be opened both are empty. *)
Lemma trace_outcomes (path : Path) :
  supported w path = true ->
  Forall2 (outcome w) (candidates w path) (fst (iter_jsons_in_path w path)).
Proof.
  unfold supported, iter_jsons_in_path, candidates.
  destruct (is_dir w path).
  - intros _.
    change (dir_item w path) with (fun p => item w (dir_candidate w path p)).
    rewrite <- (for_each_map (dir_candidate w path) _ (item w)).
    destruct (for_each_outcomes (map (dir_candidate w path) (sorted (rglob_json w path))))
      as [t [-> H]]. exact H.
  - destruct (str_eqb (lower (suffix path)) (lit ".zip")).
    + intros _. destruct (zip_namelist w path) as [e|members]; [constructor|].
      rewrite bind_lift_inr, for_each_members.
      rewrite <- (for_each_map (zip_candidate w path) _ (item w)).
      destruct (for_each_outcomes
                  (map (zip_candidate w path)
                       (filter (fun m => endswith (lower m) (lit ".json")) members)))
        as [t [-> H]]. exact H.
    + destruct (is_file w path && str_eqb (lower (suffix path)) (lit ".json"));
        [intros _|discriminate].
      rewrite file_item_candidate.
      destruct (item_outcome (file_candidate w path)) as [ev [-> H]].
      apply Forall2_cons; [exact H | apply Forall2_nil].
Qed.

Lemma unsupported_trace (path : Path) :
  supported w path = false ->
  iter_jsons_in_path w path
  = ([Print (lit "Skipping unsupported path type: " ++ path_str path)], inr tt).
Proof.
  unfold supported, iter_jsons_in_path.
  destruct (is_dir w path); [discriminate|].
  destruct (str_eqb (lower (suffix path)) (lit ".zip")); [discriminate|].
  destruct (is_file w path && str_eqb (lower (suffix path)) (lit ".json"));
    [discriminate|reflexivity].
Qed.

Lemma derive_id_truthy (data : value) (fallback : pystr) (doc_id : value) :
  derive_id data fallback = inr doc_id ->
  truthy (JStr fallback) = true ->
  truthy doc_id = true.
Proof.
  destruct data as [| | | | | |kvs]; try discriminate.
  unfold derive_id, get.
  id_chain_cases; simpl; try discriminate; intros [= <-] Hf; try assumption;
    id_chain_cases; auto.
Qed.

Lemma candidates_fallback (path : Path) :
  Forall (fun c => truthy (JStr (c_fallback c)) = true) (candidates w path).
Proof.
  unfold candidates.
  destruct (is_dir w path).
  - apply Forall_map, Forall_forall. intros p _. apply joined_name_nonempty.
  - destruct (str_eqb (lower (suffix path)) (lit ".zip")).
    + destruct (zip_namelist w path) as [e|members]; [constructor|].
      apply Forall_map, Forall_forall. intros m _. apply joined_name_nonempty.
    + destruct (is_file w path) ; simpl; [|constructor].
      destruct (str_eqb (lower (suffix path)) (lit ".json")) eqn:E; constructor;
        [|constructor].
      now apply json_suffix_name_nonempty.
Qed.

End ExtractorOutcomes.

Lemma outcomes_yields (w : World) (P : candidate -> Prop)
    (Q : value * value -> Prop) (cs : list candidate) (t : list event) :
  (forall c raw kvs doc_id,
     P c -> c_read c = inr raw -> json_loads w (decode w raw) = inr (JObj kvs) ->
     derive_id (JObj kvs) (c_fallback c) = inr doc_id ->
     Q (doc_id, document_of kvs doc_id)) ->
  Forall P cs ->
  Forall2 (outcome w) cs t ->
  Forall Q (yields t).
Proof.
  intros HQ HP H. induction H as [|c ev cs t Hev _ IH]; [constructor|].
  inversion HP as [|c' cs' Hc Hcs]; subst.
  destruct Hev as [[raw [kvs [doc_id [Hr [Hp [Hi ->]]]]]]|[e [_ ->]]]; simpl; auto.
  constructor; eauto.
Qed.

(** Over [World], whose tests all answer, one case is left: the archive
    that cannot be opened. *)
Lemma world_extraction_raises (w : World) (path : Path) (e : exn) :
  (snd (iter_jsons_in_path w path) = inl e <->
   is_dir w path = false /\
   str_eqb (lower (suffix path)) (lit ".zip") = true /\
   zip_namelist w path = inl e) /\
  (snd (iter_jsons_in_path w path) = inl e -> fst (iter_jsons_in_path w path) = []).
Proof.
  assert (Hreturns : opens w path -> snd (iter_jsons_in_path w path) = inr tt).
  { intros Ho. destruct (iter_over_candidates Ho) as [E|[_ E]]; rewrite E.
    - destruct (for_each_outcomes w (candidates w path)) as [t [-> _]]. reflexivity.
    - reflexivity. }
  destruct (is_dir w path) eqn:Hd.
  { rewrite Hreturns by (intros Hd'; congruence).
    split; [split; [discriminate | intros [? _]; discriminate] | discriminate]. }
  destruct (str_eqb (lower (suffix path)) (lit ".zip")) eqn:Hz.
  2: { rewrite Hreturns by (intros _ Hz'; congruence).
       split; [split; [discriminate | intros [_ [? _]]; discriminate] | discriminate]. }
  destruct (zip_namelist w path) as [e'|members] eqn:Hn.
  - unfold iter_jsons_in_path. rewrite Hd, Hz, Hn. simpl.
    split; [split|]; auto.
    + intros [= ->]. auto.
    + intros [_ [_ [= ->]]]. reflexivity.
  - rewrite Hreturns by (intros _ _; eauto).
    split; [split; [discriminate | intros [_ [_ ?]]; discriminate] | discriminate].
Qed.

(** Over a file system that answers every test, the extractor is the one
    of [World]. *)
Lemma iter_jsons_in_path_os_agrees (pr : Probes) (w : World) (path : Path) :
  probe_is_dir pr path = inr (is_dir w path) ->
  probe_rglob_json pr path = inr (rglob_json w path) ->
  probe_is_file pr path = inr (is_file w path) ->
  iter_jsons_in_path_os pr w path = iter_jsons_in_path w path.
Proof.
  intros Hd Hl Hf. unfold iter_jsons_in_path_os, iter_jsons_in_path.
  rewrite Hd, bind_lift_inr. destruct (is_dir w path).
  - now rewrite Hl, bind_lift_inr.
  - destruct (str_eqb (lower (suffix path)) (lit ".zip")); [reflexivity|].
    now rewrite Hf, bind_lift_inr.
Qed.

(** No loop over items raises, and neither does the single file. *)
Lemma dir_loop_returns (w : World) (path : Path) (ps : list Path) :
  snd (for_each ps (dir_item w path)) = inr tt.
Proof.
  change (dir_item w path) with (fun p => item w (dir_candidate w path p)).
  rewrite <- (for_each_map (dir_candidate w path) _ (item w)).
  now destruct (for_each_outcomes w (map (dir_candidate w path) ps)) as [t [-> _]].
Qed.

Lemma zip_loop_returns (w : World) (path : Path) (members : list pystr) :
  snd (for_each members (zip_item w path)) = inr tt.
Proof.
  rewrite for_each_members.
  rewrite <- (for_each_map (zip_candidate w path) _ (item w)).
  now destruct (for_each_outcomes w
                  (map (zip_candidate w path)
                       (filter (fun m => endswith (lower m) (lit ".json")) members)))
    as [t [-> _]].
Qed.

Lemma file_item_returns (w : World) (path : Path) :
  snd (file_item w path) = inr tt.
Proof.
  rewrite file_item_candidate.
  now destruct (item_outcome w (file_candidate w path)) as [ev [-> _]].
Qed.

(** X1.  Extraction raises only before its first item, and only what a
    call on the source itself raised: the test [is_dir], the listing of
    the directory, the opening of the archive (the path not being a
    directory and having the suffix [.zip] in any letter case), or the
    test [is_file] (the path being neither); the exception is that
    call's, and nothing has been yielded or printed.  No item ever makes
    it raise.  On a file system that answers the three tests, that
    leaves the archive that cannot be opened as the one case, and the
    run is the one over [World]. *)
Theorem extraction_raises_only_before_the_first_item (pr : Probes) (w : World)
    (path : Path) (e : exn) :
  (snd (iter_jsons_in_path_os pr w path) = inl e <->
   probe_is_dir pr path = inl e \/
   (probe_is_dir pr path = inr true /\ probe_rglob_json pr path = inl e) \/
   (probe_is_dir pr path = inr false /\
    str_eqb (lower (suffix path)) (lit ".zip") = true /\
    zip_namelist w path = inl e) \/
   (probe_is_dir pr path = inr false /\
    str_eqb (lower (suffix path)) (lit ".zip") = false /\
    probe_is_file pr path = inl e)) /\
  (snd (iter_jsons_in_path_os pr w path) = inl e ->
   fst (iter_jsons_in_path_os pr w path) = []) /\
  (iter_jsons_in_path_os (probes_of w) w path = iter_jsons_in_path w path /\
   (snd (iter_jsons_in_path w path) = inl e <->
    is_dir w path = false /\
    str_eqb (lower (suffix path)) (lit ".zip") = true /\
    zip_namelist w path = inl e)).
Proof.
  split; [|split].
  - unfold iter_jsons_in_path_os.
    destruct (probe_is_dir pr path) as [e1|[|]] eqn:Hd.
    + cbn. split; [intros [= ->]; auto|].
      intros [[= ->]|[[? _]|[[? _]|[? _]]]]; try discriminate. reflexivity.
    + rewrite bind_lift_inr.
      destruct (probe_rglob_json pr path) as [e2|ps] eqn:Hl.
      * cbn. split; [intros [= ->]; auto|].
        intros [?|[[_ [= ->]]|[[? _]|[? _]]]]; try discriminate. reflexivity.
      * rewrite bind_lift_inr, dir_loop_returns.
        split; [discriminate|].
        intros [?|[[_ ?]|[[? _]|[? _]]]]; discriminate.
    + rewrite bind_lift_inr.
      destruct (str_eqb (lower (suffix path)) (lit ".zip")) eqn:Hz.
      * destruct (zip_namelist w path) as [e3|members] eqn:Hn.
        -- cbn. split; [intros [= ->]; auto 6|].
           intros [?|[[? _]|[[_ [_ [= ->]]]|[_ [? _]]]]]; try discriminate.
           reflexivity.
        -- rewrite bind_lift_inr, zip_loop_returns.
           split; [discriminate|].
           intros [?|[[? _]|[[_ [_ ?]]|[_ [? _]]]]]; discriminate.
      * destruct (probe_is_file pr path) as [e4|f] eqn:Hf.
        -- cbn. split; [intros [= ->]; auto 7|].
           intros [?|[[? _]|[[_ [? _]]|[_ [_ [= ->]]]]]]; try discriminate.
           reflexivity.
        -- rewrite bind_lift_inr. cbv beta.
           assert (Hr : snd (if f && str_eqb (lower (suffix path)) (lit ".json")
                             then file_item w path
                             else print (lit "Skipping unsupported path type: "
                                         ++ path_str path)) = inr tt).
           { destruct (f && str_eqb (lower (suffix path)) (lit ".json"));
               [apply file_item_returns | reflexivity]. }
           split; [intros H; generalize (eq_trans (eq_sym Hr) H); discriminate|].
           intros [?|[[? _]|[[_ [? _]]|[_ [_ ?]]]]]; discriminate.
  - unfold iter_jsons_in_path_os.
    destruct (probe_is_dir pr path) as [e1|[|]]; [reflexivity| |].
    + rewrite bind_lift_inr.
      destruct (probe_rglob_json pr path) as [e2|ps]; [reflexivity|].
      rewrite bind_lift_inr, dir_loop_returns. discriminate.
    + rewrite bind_lift_inr.
      destruct (str_eqb (lower (suffix path)) (lit ".zip")).
      * destruct (zip_namelist w path) as [e3|members]; [reflexivity|].
        rewrite bind_lift_inr, zip_loop_returns. discriminate.
      * destruct (probe_is_file pr path) as [e4|f]; [reflexivity|].
        rewrite bind_lift_inr. cbv beta.
        destruct (f && str_eqb (lower (suffix path)) (lit ".json")).
        -- intros H. generalize (eq_trans (eq_sym (file_item_returns w path)) H).
           discriminate.
        -- discriminate.
  - split; [now apply iter_jsons_in_path_os_agrees|].
    apply world_extraction_raises.
Qed.

Lemma extraction_raises_only_before_the_first_item_witness :
  iter_jsons_in_path_os MoreInputs.refusing
    (Inputs.one_file Inputs.uuid_text_text) Inputs.news
  = ([], inl MoreInputs.name_too_long).
Proof.
  pose proof (@extraction_raises_only_before_the_first_item MoreInputs.refusing
                (Inputs.one_file Inputs.uuid_text_text) Inputs.news
                MoreInputs.name_too_long) as [[_ Hraise] [Hempty _]].
  specialize (Hraise (or_introl eq_refl)).
  specialize (Hempty Hraise).
  destruct (iter_jsons_in_path_os MoreInputs.refusing
              (Inputs.one_file Inputs.uuid_text_text) Inputs.news) as [t r].
  cbn [fst snd] in *. now subst.
Defined.


(** X2.  For a supported path the trace has exactly one event per item
    visited, in visiting order: the item's pair, with the document built
    from its parsed object, or the line [Failed reading <item>: <text of
    the exception that ended its try block>]; so the pairs and the
    diagnostics together number the items, and nothing is submitted. *)
Theorem one_outcome_per_item (w : World) (path : Path) :
  supported w path = true ->
  Forall2 (outcome w) (candidates w path) (fst (iter_jsons_in_path w path)) /\
  bulks (fst (iter_jsons_in_path w path)) = [] /\
  (length (yields (fst (iter_jsons_in_path w path)))
   + length (prints (fst (iter_jsons_in_path w path)))
   = length (candidates w path))%nat.
Proof.
  intros Hs. pose proof (trace_outcomes w path Hs) as H.
  split; [exact H|]. now apply outcomes_count with (w := w).
Qed.

Lemma one_outcome_per_item_witness :
  (length (yields (fst (iter_jsons_in_path
      (Inputs.three_files Inputs.both_ids_text Inputs.broken_text Inputs.array_text)
      Inputs.news)))
   + length (prints (fst (iter_jsons_in_path
      (Inputs.three_files Inputs.both_ids_text Inputs.broken_text Inputs.array_text)
      Inputs.news)))
   = length (candidates
      (Inputs.three_files Inputs.both_ids_text Inputs.broken_text Inputs.array_text)
      Inputs.news))%nat.
Proof.
  exact (proj2 (proj2 (@one_outcome_per_item
    (Inputs.three_files Inputs.both_ids_text Inputs.broken_text Inputs.array_text)
    Inputs.news eq_refl))).
Defined.

(** X3.  Every id the extractor yields is truthy, hence never [None] and
    never an empty string: the chain ends in a fallback that contains a
    slash, or, for a single file, in a file name that has the suffix
    [.json]. *)
Theorem yielded_id_is_never_falsy (w : World) (path : Path) :
  Forall (fun pr => truthy (fst pr) = true)
         (yields (fst (iter_jsons_in_path w path))).
Proof.
  destruct (supported w path) eqn:Hs.
  - apply outcomes_yields
      with (w := w) (P := fun c => truthy (JStr (c_fallback c)) = true)
           (cs := candidates w path).
    + intros c raw kvs doc_id Hc _ _ Hi. simpl. eapply derive_id_truthy; eauto.
    + apply candidates_fallback.
    + now apply trace_outcomes.
  - rewrite (unsupported_trace w path Hs). constructor.
Qed.

(** X4.  Every document the extractor yields has exactly the keys the
    index mapping declares under [mappings.properties], in the same
    order, and holds the pair's id under ['uuid']. *)
Theorem yielded_document_has_the_mapped_keys (w : World) (path : Path) :
  Forall (fun pr =>
            keys_of (snd pr) = keys_of mapped_properties /\
            get (snd pr) (lit "uuid") JNull = inr (fst pr))
         (yields (fst (iter_jsons_in_path w path))).
Proof.
  destruct (supported w path) eqn:Hs.
  - apply outcomes_yields
      with (w := w) (P := fun _ => True) (cs := candidates w path).
    + intros c raw kvs doc_id _ _ _ _. split; reflexivity.
    + apply Forall_forall. auto.
    + now apply trace_outcomes.
  - rewrite (unsupported_trace w path Hs). constructor.
Qed.

Lemma derive_id_thread kvs t tu fallback :
  truthy (field_or_null kvs (lit "uuid")) = false ->
  lookup (lit "thread") kvs = Some (JObj t) ->
  lookup (lit "uuid") t = Some tu ->
  truthy tu = true ->
  derive_id (JObj kvs) fallback = inr tu.
Proof.
  unfold derive_id, get, field_or_null. intros Hu Ht Htu Htt.
  destruct (lookup (lit "uuid") kvs) as [u|]; [rewrite Hu|];
    rewrite ?Ht, ?Htu, ?Htt; simpl; rewrite ?Ht, ?Htu, ?Htt; reflexivity.
Qed.

(** X5.  When the top-level ['uuid'] of the parsed object is absent or
    falsy and ['thread'] is an object with a truthy ['uuid'], the id of
    the yielded pair is the thread's, in all three branches. *)
Theorem thread_uuid_is_id (w : World) (path : Path) (raw : bytes)
    (kvs t : list (pystr * value)) (tu : value) :
  json_loads w (decode w raw) = inr (JObj kvs) ->
  truthy (field_or_null kvs (lit "uuid")) = false ->
  lookup (lit "thread") kvs = Some (JObj t) ->
  lookup (lit "uuid") t = Some tu ->
  truthy tu = true ->
  (forall p, read_file w p = inr raw ->
     dir_item w path p = ([Yield tu (document_of kvs tu)], inr tt)) /\
  (forall m, endswith (lower m) (lit ".json") = true ->
     zip_read w path m = inr raw ->
     zip_item w path m = ([Yield tu (document_of kvs tu)], inr tt)) /\
  (read_file w path = inr raw ->
     file_item w path = ([Yield tu (document_of kvs tu)], inr tt)).
Proof.
  intros Hp Hu Ht Htu Htt.
  repeat split.
  - intros p Hr. rewrite dir_item_candidate.
    apply item_yields with (raw := raw); auto. eapply derive_id_thread; eauto.
  - intros m Hm Hr. rewrite zip_item_candidate by assumption.
    apply item_yields with (raw := raw); auto. eapply derive_id_thread; eauto.
  - intros Hr. rewrite file_item_candidate.
    apply item_yields with (raw := raw); auto. eapply derive_id_thread; eauto.
Qed.

Lemma thread_uuid_is_id_witness :
  dir_item (MoreInputs.nested MoreInputs.thread_only_text Inputs.title_only_text)
           Inputs.news Inputs.news_a
  = ([Yield (JStr (lit "t1")) (document_of MoreInputs.thread_only (JStr (lit "t1")))],
     inr tt).
Proof.
  refine (proj1 (@thread_uuid_is_id
            (MoreInputs.nested MoreInputs.thread_only_text Inputs.title_only_text)
            Inputs.news (Fixture.to_bytes MoreInputs.thread_only_text)
            MoreInputs.thread_only [(lit "uuid", JStr (lit "t1"))] (JStr (lit "t1"))
            _ eq_refl eq_refl eq_refl eq_refl) Inputs.news_a _);
    vm_compute; reflexivity.
Defined.

Lemma derive_id_bad_thread kvs v fallback :
  truthy (field_or_null kvs (lit "uuid")) = false ->
  lookup (lit "thread") kvs = Some v ->
  isinstance_dict v = false ->
  derive_id (JObj kvs) fallback = inl (no_attribute v "get").
Proof.
  unfold derive_id, get, field_or_null. intros Hu Ht Hv.
  destruct (lookup (lit "uuid") kvs) as [u|]; [rewrite Hu|]; simpl; rewrite Ht;
    destruct v; try discriminate; reflexivity.
Qed.

Lemma item_fails_at_id c raw kvs e :
  forall w : World,
  c_read c = inr raw ->
  json_loads w (decode w raw) = inr (JObj kvs) ->
  derive_id (JObj kvs) (c_fallback c) = inl e ->
  item w c = ([Print (diagnostic c e)], inr tt).
Proof.
  intros w Hr Hp Hi. unfold item. now rewrite extract_item_steps, Hr, Hp, Hi.
Qed.

(** X6.  A parsed object whose top-level ['uuid'] is absent or falsy and
    whose ['thread'] is present but not an object (null, a string, a
    number, a list) is skipped: no pair, one diagnostic saying that the
    value's type has no attribute [get]. *)
Theorem item_with_non_object_thread_is_skipped (w : World) (path : Path) (raw : bytes)
    (kvs : list (pystr * value)) (v : value) :
  json_loads w (decode w raw) = inr (JObj kvs) ->
  truthy (field_or_null kvs (lit "uuid")) = false ->
  lookup (lit "thread") kvs = Some v ->
  isinstance_dict v = false ->
  exn_str (no_attribute v "get")
  = lit "'" ++ type_name v ++ lit "' object has no attribute 'get'" /\
  (forall p, read_file w p = inr raw ->
     dir_item w path p
     = ([Print (lit "Failed reading " ++ path_str p ++ lit ": "
                ++ exn_str (no_attribute v "get"))], inr tt)) /\
  (forall m, endswith (lower m) (lit ".json") = true ->
     zip_read w path m = inr raw ->
     zip_item w path m
     = ([Print (lit "Failed reading " ++ m ++ lit " in " ++ path_str path ++ lit ": "
                ++ exn_str (no_attribute v "get"))], inr tt)) /\
  (read_file w path = inr raw ->
     file_item w path
     = ([Print (lit "Failed reading " ++ path_str path ++ lit ": "
                ++ exn_str (no_attribute v "get"))], inr tt)).
Proof.
  intros Hp Hu Ht Hv.
  pose proof (fun fb => @derive_id_bad_thread kvs v fb Hu Ht Hv) as Hi.
  split; [reflexivity|]. repeat split.
  - intros p Hr. rewrite dir_item_candidate.
    now apply item_fails_at_id with (raw := raw) (kvs := kvs).
  - intros m Hm Hr. rewrite zip_item_candidate by assumption.
    rewrite (@item_fails_at_id (zip_candidate w path m) raw kvs
               (no_attribute v "get") w Hr Hp (Hi _)).
    unfold diagnostic. simpl c_label. now rewrite <- !app_assoc.
  - intros Hr. rewrite file_item_candidate.
    now apply item_fails_at_id with (raw := raw) (kvs := kvs).
Qed.

Lemma item_with_non_object_thread_is_skipped_witness :
  iter_jsons_in_path
    (MoreInputs.nested MoreInputs.null_thread_text Inputs.uuid_text_text) Inputs.news
  = ([Print (lit "Failed reading news/a.json: 'NoneType' object has no attribute 'get'");
      Yield (JStr (lit "u2")) (document_of Inputs.uuid_text (JStr (lit "u2")))],
     inr tt).
Proof.
  assert (H : dir_item
                (MoreInputs.nested MoreInputs.null_thread_text Inputs.uuid_text_text)
                Inputs.news Inputs.news_a
              = ([Print (lit "Failed reading news/a.json: 'NoneType' object has no attribute 'get'")],
                 inr tt)).
  { refine (proj1 (proj2 (@item_with_non_object_thread_is_skipped
              (MoreInputs.nested MoreInputs.null_thread_text Inputs.uuid_text_text)
              Inputs.news (Fixture.to_bytes MoreInputs.null_thread_text)
              MoreInputs.null_thread JNull _ eq_refl eq_refl eq_refl)) Inputs.news_a _);
      vm_compute; reflexivity. }
  change (iter_jsons_in_path
            (MoreInputs.nested MoreInputs.null_thread_text Inputs.uuid_text_text)
            Inputs.news)
    with (bind (dir_item
                  (MoreInputs.nested MoreInputs.null_thread_text Inputs.uuid_text_text)
                  Inputs.news Inputs.news_a)
               (fun _ => for_each [MoreInputs.news_sub_a]
                  (dir_item (MoreInputs.nested MoreInputs.null_thread_text
                                               Inputs.uuid_text_text) Inputs.news))).
  rewrite H. vm_compute. reflexivity.
Defined.

(** X7.  In a directory the fallback id uses the file's base name only:
    two files without identifiers that have the same name in different
    subdirectories are yielded under one and the same id. *)
Theorem same_file_name_same_fallback_id (w : World) (path p1 p2 : Path)
    (raw1 raw2 : bytes) (kvs1 kvs2 : list (pystr * value)) :
  read_file w p1 = inr raw1 -> json_loads w (decode w raw1) = inr (JObj kvs1) ->
  read_file w p2 = inr raw2 -> json_loads w (decode w raw2) = inr (JObj kvs2) ->
  lacks_ids kvs1 -> lacks_ids kvs2 ->
  name p1 = name p2 ->
  exists doc_id,
    dir_item w path p1 = ([Yield doc_id (document_of kvs1 doc_id)], inr tt) /\
    dir_item w path p2 = ([Yield doc_id (document_of kvs2 doc_id)], inr tt).
Proof.
  intros Hr1 Hp1 Hr2 Hp2 Hl1 Hl2 Hn.
  exists (JStr (name path ++ slash ++ name p1)). split.
  - rewrite dir_item_candidate. apply item_yields with (raw := raw1); auto.
    now apply derive_id_fallback.
  - rewrite dir_item_candidate. apply item_yields with (raw := raw2); auto.
    simpl c_fallback. unfold dir_fallback. rewrite <- Hn.
    now apply derive_id_fallback.
Qed.

Lemma same_file_name_same_fallback_id_witness :
  exists doc_id,
    dir_item (MoreInputs.nested Inputs.title_only_text Inputs.title_only_text)
             Inputs.news Inputs.news_a
    = ([Yield doc_id (document_of Inputs.title_only doc_id)], inr tt) /\
    dir_item (MoreInputs.nested Inputs.title_only_text Inputs.title_only_text)
             Inputs.news MoreInputs.news_sub_a
    = ([Yield doc_id (document_of Inputs.title_only doc_id)], inr tt).
Proof.
  apply (@same_file_name_same_fallback_id
           (MoreInputs.nested Inputs.title_only_text Inputs.title_only_text)
           Inputs.news Inputs.news_a MoreInputs.news_sub_a
           (Fixture.to_bytes Inputs.title_only_text)
           (Fixture.to_bytes Inputs.title_only_text)
           Inputs.title_only Inputs.title_only).
  1-4: vm_compute; reflexivity.
  1-2: split; [reflexivity | left; reflexivity].
  reflexivity.
Defined.

(* ================================================================== *)
(** ** More on the batch loader *)

Lemma batches_singletons (B : Z) (l : list value) :
  B <= 1 -> batches B [] l = singletons l.
Proof.
  intros HB. induction l as [|a l IH]; simpl; [reflexivity|].
  assert (E : (len [a] >=? B) = true).
  { rewrite Z.geb_leb. apply Z.leb_le. change (len [a]) with 1. lia. }
  now rewrite E, IH.
Qed.

(** Sizes and number of the batches, for any accumulator below the size. *)
Lemma batches_shape (B : Z) (l : list value) :
  1 <= B ->
  forall acc, len acc < B ->
    Forall (fun b => 1 <= len b <= B) (batches B acc l) /\
    (forall pre last, batches B acc l = pre ++ [last] ->
       Forall (fun b => len b = B) pre) /\
    Z.of_nat (length (batches B acc l)) = (len acc + len l + B - 1) / B.
Proof.
  intros HB. induction l as [|a l IH]; intros acc Hacc.
  - simpl. destruct acc as [|x acc].
    + repeat split; [constructor | |].
      * intros pre last H. destruct pre; discriminate.
      * change (len (@nil value)) with 0. simpl.
        symmetry. apply Z.div_small. lia.
    + assert (Hx : 1 <= len (x :: acc)) by (unfold len; simpl length; lia).
      repeat split.
      * constructor; [lia | constructor].
      * intros pre last H. destruct pre as [|b [|c pre]]; try discriminate.
        constructor.
      * change (len (@nil value)) with 0. simpl length.
        apply Z.div_unique with (r := len (x :: acc) - 1); lia.
  - cbn [batches].
    assert (Hlen : len (acc ++ [a]) = len acc + 1)
      by (rewrite len_app; reflexivity).
    pose proof (len_nonneg acc) as Hnn.
    change (a :: l) with ([a] ++ l). rewrite (len_app [a] l).
    change (len [a]) with 1.
    destruct (len (acc ++ [a]) >=? B) eqn:E; rewrite Z.geb_leb in E.
    + apply Z.leb_le in E.
      destruct (IH [] ltac:(change (len (@nil value)) with 0; lia))
        as [Hall [Hpre Hnum]].
      change (len (@nil value)) with 0 in Hnum.
      repeat split.
      * constructor; [lia | exact Hall].
      * intros pre last H. destruct pre as [|b pre].
        { constructor. }
        simpl in H. injection H as <- H. constructor; [lia | eauto].
      * simpl length. rewrite Nat2Z.inj_succ, Hnum.
        replace (len acc + (1 + len l) + B - 1) with ((0 + len l + B - 1) + 1 * B) by lia.
        rewrite Z.div_add by lia. lia.
    + apply Z.leb_gt in E.
      destruct (IH (acc ++ [a]) E) as [Hall [Hpre Hnum]].
      repeat split; auto.
      rewrite Hnum, Hlen. f_equal. lia.
Qed.

(** Two ways of cutting one list at an element. *)
Lemma snoc_split {A} (l pre post : list A) (x b : A) :
  l ++ [x] = pre ++ b :: post ->
  (post = [] /\ l = pre /\ x = b) \/
  exists post', post = post' ++ [x] /\ l = pre ++ b :: post'.
Proof.
  intros H. destruct post as [|p post].
  - left. apply app_inj_tail in H as [-> ->]. auto.
  - right. destruct (@exists_last _ (p :: post) ltac:(discriminate)) as [m [y Hm]].
    rewrite Hm in H.
    change (pre ++ b :: m ++ [y]) with (pre ++ (b :: m) ++ [y]) in H.
    rewrite app_assoc in H. apply app_inj_tail in H as [-> ->].
    exists m. auto.
Qed.

Lemma split_compare {A} (a a' r r' : list A) (x x' : A) :
  a ++ x :: r = a' ++ x' :: r' ->
  (a = a' /\ x = x' /\ r = r') \/
  (exists m, a = a' ++ x' :: m) \/
  (exists m, a' = a ++ x :: m).
Proof.
  revert a'. induction a as [|y a IH]; intros [|y' a'] H; simpl in H.
  - injection H as -> ->. auto.
  - injection H as -> ->. right. right. exists a'. reflexivity.
  - injection H as -> <-. right. left. exists a. reflexivity.
  - injection H as -> H. destruct (IH a' H) as [[-> [-> ->]]|[[m ->]|[m ->]]].
    + auto.
    + right. left. exists m. reflexivity.
    + right. right. exists m. reflexivity.
Qed.

Section LoaderOutcomes.

Variable es : EsClient.
Variable index_name : pystr.
Variable B : Z.

Let act (pr : value * value) : value := action index_name (fst pr) (snd pr).

(** The loop with any client: it goes through, or it stops at the
    first submission that raises. *)
Lemma bulk_loop_outcome (evs : list event) :
  bulks evs = [] ->
  forall st, exists t r,
    bulk_loop es index_name B evs st = (t, r) /\
    match r with
    | inr st' =>
        bulks t ++ flush (st_actions st')
        = batches B (st_actions st) (map act (yields evs)) /\
        st_total st' + len (st_actions st')
        = st_total st + len (st_actions st) + len (yields evs) /\
        prints t = prints evs /\
        st_hist st' = st_hist st ++ bulks t /\
        concat (bulks t) ++ st_actions st' = st_actions st ++ map act (yields evs) /\
        (1 <= B -> len (st_actions st) < B -> len (st_actions st') < B)
    | inl e =>
        exists done failed rest,
          bulks t = done ++ [failed] /\
          batches B (st_actions st) (map act (yields evs)) = done ++ failed :: rest /\
          es_bulk es (st_hist st ++ done) failed = Some e
    end.
Proof.
  induction evs as [|[line|doc_id doc|a] evs IH]; intros Hb st; simpl in Hb.
  - exists [], (inr st). split; [reflexivity|]. simpl.
    rewrite !app_nil_r. change (len (@nil (value * value))) with 0.
    repeat split; auto; try lia.
  - destruct (IH Hb st) as [t [r [Hrun H]]].
    exists (Print line :: t), r. cbn [bulk_loop]. rewrite bind_event, Hrun.
    split; [reflexivity|]. destruct r as [e|st']; simpl; [exact H|].
    destruct H as [H1 [H2 [H3 [H4 [H5 H6]]]]]. repeat split; auto. now rewrite H3.
  - cbn [bulk_loop yields map batches].
    change (act (doc_id, doc)) with (action index_name doc_id doc).
    set (actions := st_actions st ++ [action index_name doc_id doc]).
    assert (Hlen : len actions = len (st_actions st) + 1)
      by (unfold actions; rewrite len_app; reflexivity).
    assert (Hyl : len ((doc_id, doc) :: yields evs) = 1 + len (yields evs))
      by (unfold len; simpl length; lia).
    destruct (len actions >=? B) eqn:E.
    + unfold helpers_bulk.
      destruct (es_bulk es (st_hist st) actions) as [e|] eqn:Hcall.
      * exists [Bulk actions], (inl e). split; [reflexivity|].
        exists [], actions, (batches B [] (map act (yields evs))).
        rewrite app_nil_r. auto.
      * destruct (IH Hb (mkState [] (st_total st + len actions)
                                 (st_hist st ++ [actions])))
          as [t [r [Hrun H]]].
        exists (Bulk actions :: t), r. rewrite bind_event, Hrun.
        split; [reflexivity|]. destruct r as [e|st']; cbn [st_actions st_total st_hist] in *.
        -- destruct H as [done [failed [rest [H1 [H2 H3]]]]].
           exists (actions :: done), failed, rest.
           cbn [bulks]. rewrite H1, H2. rewrite <- app_assoc in H3. auto.
        -- destruct H as [H1 [H2 [H3 [H4 [H5 H6]]]]].
           rewrite Z.geb_leb in E. apply Z.leb_le in E.
           cbn [bulks concat]. rewrite <- !app_comm_cons.
           repeat split; auto.
           ++ now rewrite H1.
           ++ rewrite H2, Hlen, Hyl. change (len (@nil value)) with 0. lia.
           ++ now rewrite H4, <- app_assoc.
           ++ rewrite <- app_assoc, H5. unfold actions. now rewrite <- app_assoc.
           ++ intros HB Hacc.
              apply H6; [assumption | change (len (@nil value)) with 0; lia].
    + destruct (IH Hb (mkState actions (st_total st) (st_hist st)))
        as [t [r [Hrun H]]].
      exists t, r. split; [exact Hrun|]. destruct r as [e|st']; cbn [st_actions st_total st_hist] in *;
        [exact H|].
      destruct H as [H1 [H2 [H3 [H4 [H5 H6]]]]].
      rewrite Z.geb_leb in E. apply Z.leb_gt in E.
      repeat split; auto.
      * rewrite H2, Hlen, Hyl. lia.
      * rewrite H5. unfold actions. now rewrite <- app_assoc.
  - discriminate.
Qed.

(** The loader with any client and an iterator that ends normally. *)
Lemma bulk_index_outcome (evs : list event) :
  bulks evs = [] ->
  exists t r,
    bulk_index es index_name B (evs, inr tt) = (t, r) /\
    match r with
    | inr n =>
        n = len (yields evs) /\
        bulks t = batches B [] (map act (yields evs)) /\
        prints t = prints evs
    | inl e =>
        exists done failed rest,
          bulks t = done ++ [failed] /\
          batches B [] (map act (yields evs)) = done ++ failed :: rest /\
          es_bulk es done failed = Some e
    end.
Proof.
  intros Hb.
  destruct (bulk_loop_outcome evs Hb (mkState [] 0 [])) as [t [r [Hrun H]]].
  unfold bulk_index. rewrite Hrun.
  destruct r as [e|st'].
  - exists t, (inl e). split; [reflexivity|]. exact H.
  - simpl in H. destruct H as [H1 [H2 [H3 [H4 [H5 H6]]]]].
    change (len (@nil value)) with 0 in H2.
    rewrite bind_returned, bind_lift_inr.
    destruct (st_actions st') as [|a acts] eqn:Ea.
    + exists (t ++ []), (inr (st_total st')). split; [reflexivity|].
      change (len (@nil value)) with 0 in H2. simpl in H1.
      rewrite !app_nil_r in *. repeat split; auto; lia.
    + unfold helpers_bulk. rewrite H4. simpl app.
      destruct (es_bulk es (bulks t) (a :: acts)) as [e|] eqn:Hcall.
      * exists (t ++ [Bulk (a :: acts)]), (inl e). split; [reflexivity|].
        exists (bulks t), (a :: acts), []. rewrite bulks_app. simpl. auto.
      * exists (t ++ [Bulk (a :: acts)]), (inr (st_total st' + len (a :: acts))).
        split; [reflexivity|].
        rewrite bulks_app, prints_app. simpl. rewrite app_nil_r.
        repeat split; auto; lia.
Qed.

(** Every submission the loop made had returned, the client having seen
    the batches before it, except the last one of a loop that raised. *)
Lemma bulk_loop_submissions (evs : list event) :
  bulks evs = [] ->
  forall st pre b post,
    bulks (fst (bulk_loop es index_name B evs st)) = pre ++ b :: post ->
    (post <> [] \/ exists st', snd (bulk_loop es index_name B evs st) = inr st') ->
    es_bulk es (st_hist st ++ pre) b = None.
Proof.
  induction evs as [|[line|doc_id doc|a] evs IH]; intros Hb st pre b post;
    simpl in Hb.
  - simpl. intros H. destruct pre; discriminate.
  - cbn [bulk_loop]. rewrite bind_event. cbn [fst snd bulks]. now apply IH.
  - cbn [bulk_loop].
    set (actions := st_actions st ++ [action index_name doc_id doc]).
    destruct (len actions >=? B).
    + unfold helpers_bulk.
      destruct (es_bulk es (st_hist st) actions) as [e|] eqn:Hcall.
      * cbn. intros H [Hp|[st' Hs]]; [|discriminate].
        destruct pre as [|p pre]; simpl in H.
        -- injection H as _ <-. now destruct Hp.
        -- destruct pre; discriminate.
      * rewrite bind_event. cbn [fst snd bulks]. intros H Hc.
        destruct pre as [|p pre]; simpl in H; injection H as <- H.
        -- now rewrite app_nil_r.
        -- pose proof (IH Hb (mkState [] (st_total st + len actions)
                                 (st_hist st ++ [actions])) pre b post H Hc) as Hr.
           cbn [st_hist] in Hr. now rewrite <- app_assoc in Hr.
    + intros H Hc.
      exact (IH Hb (mkState actions (st_total st) (st_hist st)) pre b post H Hc).
  - discriminate.
Qed.

(** The same of a whole run, final flush included. *)
Lemma bulk_index_submissions (evs : list event) :
  bulks evs = [] ->
  forall pre b post,
    bulks (fst (bulk_index es index_name B (evs, inr tt))) = pre ++ b :: post ->
    (post <> [] \/ exists n, snd (bulk_index es index_name B (evs, inr tt)) = inr n) ->
    es_bulk es pre b = None.
Proof.
  intros Hb pre b post.
  pose proof (bulk_loop_submissions evs Hb (mkState [] 0 [])) as Hloop.
  destruct (bulk_loop_outcome evs Hb (mkState [] 0 [])) as [t [r [Hrun H]]].
  unfold bulk_index. rewrite Hrun in *. cbn [fst snd st_hist app] in Hloop.
  destruct r as [e|st'].
  - cbn. intros Hs [Hp|[n Hn]]; [|discriminate]. eapply Hloop; eauto.
  - cbn [st_hist st_actions app] in H. destruct H as [_ [_ [_ [H4 _]]]].
    rewrite bind_returned, bind_lift_inr.
    assert (Hin : forall post', bulks t = pre ++ b :: post' -> es_bulk es pre b = None).
    { intros post' Hs. eapply Hloop; [exact Hs|]. right. eexists. reflexivity. }
    destruct (st_actions st') as [|a acts] eqn:Ea.
    + cbn [fst snd ret]. rewrite app_nil_r. intros Hs _. eauto.
    + unfold helpers_bulk. rewrite H4.
      destruct (es_bulk es (bulks t) (a :: acts)) as [e|] eqn:Hcall.
      * cbn [bind fst snd]. rewrite bulks_app. cbn [bulks].
        intros Hs [Hp|[n Hn]]; [|discriminate].
        destruct (snoc_split _ _ _ _ _ Hs) as [[-> _]|[post' [_ Ht]]];
          [now destruct Hp | eauto].
      * rewrite bind_event. cbn [fst snd ret]. rewrite bulks_app. cbn [bulks].
        intros Hs _.
        destruct (snoc_split _ _ _ _ _ Hs) as [[_ [<- <-]]|[post' [_ Ht]]];
          [exact Hcall | eauto].
Qed.

End LoaderOutcomes.

(** X8.  Whatever the client does, when the loader returns (the iterator
    having ended normally) the number returned is the number of pairs of
    the stream and every one of them was submitted, in order, in the
    batches of the batch size: no failure is ever swallowed into a
    smaller count. *)
Theorem bulk_index_return_is_stream_length (es : EsClient) (index_name : pystr)
    (B : Z) (evs : list event) (n : Z) :
  bulks evs = [] ->
  snd (bulk_index es index_name B (evs, inr tt)) = inr n ->
  n = len (yields evs) /\
  bulks (fst (bulk_index es index_name B (evs, inr tt)))
  = batches B [] (map (fun pr => action index_name (fst pr) (snd pr)) (yields evs)) /\
  concat (bulks (fst (bulk_index es index_name B (evs, inr tt))))
  = map (fun pr => action index_name (fst pr) (snd pr)) (yields evs).
Proof.
  intros Hb Hret.
  destruct (bulk_index_outcome es index_name B evs Hb) as [t [r [Hrun H]]].
  rewrite Hrun in *. simpl in Hret. subst r. destruct H as [Hn [Hbat _]].
  simpl fst. rewrite Hbat, batches_concat. auto.
Qed.

Lemma bulk_index_return_is_stream_length_witness :
  5 = len (yields (fst Inputs.iter_five)) /\
  bulks (fst (bulk_index (Fixture.es_ok JNull) INDEX_NAME 3 Inputs.iter_five))
  = batches 3 [] (map (fun pr => action INDEX_NAME (fst pr) (snd pr))
                      (yields (fst Inputs.iter_five))).
Proof.
  destruct (@bulk_index_return_is_stream_length (Fixture.es_ok JNull) INDEX_NAME 3
              (fst Inputs.iter_five) 5 eq_refl eq_refl) as [H1 [H2 _]].
  split; [exact H1 | exact H2].
Defined.

(** X9.  When a bulk submission raises, the loader raises that exception
    at once.  Let the batches due for the stream be [done], then
    [failed], then [rest]; if the client accepts every batch of [done],
    having seen the batches before it, and raises [e] on [failed],
    having seen [done], then the run raises [e], the submissions made
    are the batches of [done] and then [failed], which is the last, and
    neither the batches of [rest] nor a final partial one are ever
    submitted, though their actions were due. *)
Theorem bulk_failure_stops_the_run (es : EsClient) (index_name : pystr)
    (B : Z) (evs : list event) (e : exn)
    (done : list (list value)) (failed : list value) (rest : list (list value)) :
  bulks evs = [] ->
  batches B [] (map (fun pr => action index_name (fst pr) (snd pr)) (yields evs))
  = done ++ failed :: rest ->
  (forall pre b post, done = pre ++ b :: post -> es_bulk es pre b = None) ->
  es_bulk es done failed = Some e ->
  snd (bulk_index es index_name B (evs, inr tt)) = inl e /\
  bulks (fst (bulk_index es index_name B (evs, inr tt))) = done ++ [failed] /\
  map (fun pr => action index_name (fst pr) (snd pr)) (yields evs)
  = concat done ++ failed ++ concat rest.
Proof.
  intros Hb Hbat Hdone Hfail.
  assert (Hall : map (fun pr => action index_name (fst pr) (snd pr)) (yields evs)
                 = concat done ++ failed ++ concat rest).
  { pose proof (batches_concat B
      (map (fun pr => action index_name (fst pr) (snd pr)) (yields evs)) []) as Hc.
    simpl app in Hc. rewrite <- Hc, Hbat, concat_app. reflexivity. }
  pose proof (bulk_index_submissions es index_name B evs Hb) as Hsub.
  destruct (bulk_index_outcome es index_name B evs Hb) as [t [r [Hrun H]]].
  unfold result in *. rewrite Hrun in *. cbn [fst snd] in *.
  destruct r as [e'|n].
  - destruct H as [done' [failed' [rest' [H1 [H2 H3]]]]].
    rewrite Hbat in H2.
    destruct (split_compare _ _ _ _ _ _ H2) as [[-> [-> ->]]|[[m ->]|[m ->]]].
    + rewrite Hfail in H3. injection H3 as ->. auto.
    + rewrite (Hdone done' failed' m eq_refl) in H3. discriminate.
    + rewrite <- app_assoc in H1. cbn [app] in H1.
      rewrite (Hsub done failed (m ++ [failed']) H1) in Hfail; [discriminate|].
      left. intros Hm. destruct m; discriminate.
  - destruct H as [_ [H2 _]]. rewrite Hbat in H2.
    rewrite (Hsub done failed rest H2) in Hfail; [discriminate|].
    right. eexists. reflexivity.
Qed.

Lemma bulk_failure_stops_the_run_witness :
  snd (bulk_index MoreInputs.es_second_fails INDEX_NAME 2 Inputs.iter_five)
  = inl Fixture.connection_error
  /\ bulks (fst (bulk_index MoreInputs.es_second_fails INDEX_NAME 2 Inputs.iter_five))
     = [map (fun pr => action INDEX_NAME (fst pr) (snd pr))
            [Inputs.pair_n 1; Inputs.pair_n 2];
        map (fun pr => action INDEX_NAME (fst pr) (snd pr))
            [Inputs.pair_n 3; Inputs.pair_n 4]].
Proof.
  pose proof (@bulk_failure_stops_the_run MoreInputs.es_second_fails INDEX_NAME 2
           (fst Inputs.iter_five) Fixture.connection_error
           [map (fun pr => action INDEX_NAME (fst pr) (snd pr))
                [Inputs.pair_n 1; Inputs.pair_n 2]]
           (map (fun pr => action INDEX_NAME (fst pr) (snd pr))
                [Inputs.pair_n 3; Inputs.pair_n 4])
           [map (fun pr => action INDEX_NAME (fst pr) (snd pr)) [Inputs.pair_n 5]]
           eq_refl eq_refl) as H.
  refine (match H _ eq_refl with conj H1 (conj H2 _) => conj H1 H2 end).
  intros pre b post Hd. destruct pre as [|p pre]; [reflexivity|].
  destruct pre; discriminate Hd.
Defined.

(** X10.  When the iterator itself raises (an archive that cannot be
    opened, say) and every submission so far succeeded, the loader raises
    the iterator's exception without the final flush: the full batches
    were submitted, and the documents accumulated since, fewer than the
    batch size, never are. *)
Theorem iterator_failure_drops_pending (es : EsClient) (index_name : pystr)
    (B : Z) (evs : list event) (e : exn) :
  (forall hist actions, es_bulk es hist actions = None) ->
  bulks evs = [] ->
  exists pending,
    snd (bulk_index es index_name B (evs, inl e)) = inl e /\
    bulks (fst (bulk_index es index_name B (evs, inl e))) ++ flush pending
    = batches B [] (map (fun pr => action index_name (fst pr) (snd pr)) (yields evs)) /\
    concat (bulks (fst (bulk_index es index_name B (evs, inl e)))) ++ pending
    = map (fun pr => action index_name (fst pr) (snd pr)) (yields evs) /\
    (1 <= B -> len pending < B).
Proof.
  intros Hok Hb.
  destruct (bulk_loop_outcome es index_name B evs Hb (mkState [] 0 []))
    as [t [r [Hrun H]]].
  unfold bulk_index. rewrite Hrun.
  destruct r as [e'|st'].
  - destruct H as [done [failed [rest [_ [_ H3]]]]]. now rewrite Hok in H3.
  - simpl in H. destruct H as [H1 [_ [_ [_ [H5 H6]]]]].
    exists (st_actions st'). rewrite bind_returned. unfold lift, bind. simpl fst. simpl snd.
    rewrite app_nil_r. repeat split; auto.
    intros HB. apply H6; [assumption | change (len (@nil value)) with 0; lia].
Qed.

Lemma iterator_failure_drops_pending_witness :
  snd (bulk_index (Fixture.es_ok JNull) INDEX_NAME 2 MoreInputs.iter_five_then_fail)
  = inl Fixture.no_such_file /\
  length (concat (bulks (fst (bulk_index (Fixture.es_ok JNull) INDEX_NAME 2
                                MoreInputs.iter_five_then_fail)))) = 4%nat.
Proof.
  destruct (@iterator_failure_drops_pending (Fixture.es_ok JNull) INDEX_NAME 2
              (fst Inputs.iter_five) Fixture.no_such_file
              (fun _ _ => eq_refl) eq_refl) as [pending [H1 _]].
  split; [exact H1 | reflexivity].
Defined.

(** X11.  A stream without pairs makes no submission and returns 0, with
    any client and any batch size; what the iterator printed on the way
    is printed. *)
Theorem empty_stream_submits_nothing (es : EsClient) (index_name : pystr)
    (B : Z) (evs : list event) :
  bulks evs = [] ->
  yields evs = [] ->
  snd (bulk_index es index_name B (evs, inr tt)) = inr 0 /\
  bulks (fst (bulk_index es index_name B (evs, inr tt))) = [] /\
  prints (fst (bulk_index es index_name B (evs, inr tt))) = prints evs.
Proof.
  intros Hb Hy.
  destruct (bulk_index_outcome es index_name B evs Hb) as [t [r [Hrun H]]].
  rewrite Hrun, Hy in *. simpl in *. destruct r as [e|n].
  - destruct H as [done [failed [rest [_ [H2 _]]]]]. destruct done; discriminate.
  - destruct H as [-> [H2 H3]]. auto.
Qed.

Lemma empty_stream_submits_nothing_witness :
  snd (bulk_index Fixture.es_down INDEX_NAME BATCH_SIZE
         (iter_jsons_in_path (Inputs.one_file Inputs.array_text) Inputs.news))
  = inr 0.
Proof.
  exact (proj1 (@empty_stream_submits_nothing Fixture.es_down INDEX_NAME BATCH_SIZE
                  (fst (iter_jsons_in_path (Inputs.one_file Inputs.array_text)
                                           Inputs.news))
                  eq_refl eq_refl)).
Defined.

(** X12.  With a batch size of 1, 0 or below, every document is submitted
    on its own as soon as it arrives: as many submissions as pairs. *)
Theorem small_batch_size_submits_one_by_one (es : EsClient) (index_name : pystr)
    (B : Z) (evs : list event) :
  (forall hist actions, es_bulk es hist actions = None) ->
  bulks evs = [] ->
  B <= 1 ->
  bulks (fst (bulk_index es index_name B (evs, inr tt)))
  = singletons (map (fun pr => action index_name (fst pr) (snd pr)) (yields evs)) /\
  snd (bulk_index es index_name B (evs, inr tt)) = inr (len (yields evs)).
Proof.
  intros Hok Hb HB.
  destruct (@bulk_index_run es index_name B Hok evs Hb) as [t [Hrun [Hbat _]]].
  rewrite Hrun. simpl. rewrite Hbat. split; [|reflexivity].
  now apply batches_singletons.
Qed.

Lemma small_batch_size_submits_one_by_one_witness :
  bulks (fst (bulk_index (Fixture.es_ok JNull) INDEX_NAME 0 Inputs.iter_five))
  = singletons (map (fun pr => action INDEX_NAME (fst pr) (snd pr))
                    (yields (fst Inputs.iter_five))).
Proof.
  exact (proj1 (@small_batch_size_submits_one_by_one (Fixture.es_ok JNull)
                  INDEX_NAME 0 (fst Inputs.iter_five)
                  (fun _ _ => eq_refl) eq_refl ltac:(lia))).
Defined.

(** X13.  For a batch size [B >= 1] and submissions that succeed, no
    batch is empty or larger than [B], every batch but the last has
    exactly [B] documents, and the number of submissions is the number of
    pairs divided by [B], rounded up. *)
Theorem batches_are_full_but_the_last (es : EsClient) (index_name : pystr)
    (B : Z) (evs : list event) :
  (forall hist actions, es_bulk es hist actions = None) ->
  bulks evs = [] ->
  1 <= B ->
  Forall (fun b => 1 <= len b <= B)
         (bulks (fst (bulk_index es index_name B (evs, inr tt)))) /\
  (forall pre last,
     bulks (fst (bulk_index es index_name B (evs, inr tt))) = pre ++ [last] ->
     Forall (fun b => len b = B) pre) /\
  len (bulks (fst (bulk_index es index_name B (evs, inr tt))))
  = (len (yields evs) + B - 1) / B.
Proof.
  intros Hok Hb HB.
  destruct (@bulk_index_run es index_name B Hok evs Hb) as [t [Hrun [Hbat _]]].
  rewrite Hrun. simpl fst. rewrite Hbat.
  destruct (@batches_shape B
              (map (fun pr => action index_name (fst pr) (snd pr)) (yields evs))
              HB [] ltac:(change (len (@nil value)) with 0; lia))
    as [H1 [H2 H3]].
  split; [exact H1 | split; [exact H2 |]].
  unfold len at 1. rewrite H3. change (len (@nil value)) with 0.
  unfold len. now rewrite length_map.
Qed.

Lemma batches_are_full_but_the_last_witness :
  len (bulks (fst (bulk_index (Fixture.es_ok JNull) INDEX_NAME 2 Inputs.iter_five)))
  = (len (yields (fst Inputs.iter_five)) + 2 - 1) / 2.
Proof.
  exact (proj2 (proj2 (@batches_are_full_but_the_last (Fixture.es_ok JNull) INDEX_NAME 2
           (fst Inputs.iter_five) (fun _ _ => eq_refl) eq_refl ltac:(lia)))).
Defined.

(** X14.  Indexing a source: when the source opens and the submissions
    succeed, the loader fed by the extractor returns the number of pairs
    extracted, which is the number of items less the number of
    diagnostics; the diagnostics are printed during the run, and the
    actions submitted are, in order and one for each extracted pair, the
    object with the index name under ['_index'], the pair's id under
    ['_id'] and the pair's document under ['_source']. *)
Theorem indexing_a_source (w : World) (path : Path) (es : EsClient)
    (index_name : pystr) (B : Z) :
  (forall hist actions, es_bulk es hist actions = None) ->
  opens w path ->
  supported w path = true ->
  snd (bulk_index es index_name B (iter_jsons_in_path w path))
  = inr (len (candidates w path)
         - len (prints (fst (iter_jsons_in_path w path)))) /\
  prints (fst (bulk_index es index_name B (iter_jsons_in_path w path)))
  = prints (fst (iter_jsons_in_path w path)) /\
  concat (bulks (fst (bulk_index es index_name B (iter_jsons_in_path w path))))
  = map (fun pr => JObj [(lit "_index", JStr index_name);
                         (lit "_id", fst pr);
                         (lit "_source", snd pr)])
        (yields (fst (iter_jsons_in_path w path))).
Proof.
  intros Hok Ho Hs.
  pose proof (trace_outcomes w path Hs) as Hout.
  apply outcomes_count in Hout as [Hb Hn].
  assert (Hend : snd (iter_jsons_in_path w path) = inr tt).
  { destruct (iter_over_candidates Ho) as [E|[_ E]]; rewrite E; [|reflexivity].
    destruct (for_each_outcomes w (candidates w path)) as [t [-> _]]. reflexivity. }
  destruct (iter_jsons_in_path w path) as [evs r]. cbn [fst snd] in *. subst r.
  destruct (@bulk_index_run es index_name B Hok evs Hb) as [t [Hrun [Hbat Hpr]]].
  unfold result in *. rewrite Hrun. simpl. rewrite Hbat, batches_concat. repeat split; auto.
  f_equal. unfold len. lia.
Qed.

Lemma indexing_a_source_witness :
  snd (bulk_index (Fixture.es_ok JNull) INDEX_NAME BATCH_SIZE
         (iter_jsons_in_path
            (Inputs.three_files Inputs.both_ids_text Inputs.broken_text
                                Inputs.uuid_text_text) Inputs.news))
  = inr 2
  /\ concat (bulks (fst (bulk_index (Fixture.es_ok JNull) INDEX_NAME BATCH_SIZE
         (iter_jsons_in_path
            (Inputs.three_files Inputs.both_ids_text Inputs.broken_text
                                Inputs.uuid_text_text) Inputs.news))))
     = [JObj [(lit "_index", JStr (lit "esindex-v1.0"));
              (lit "_id", JStr (lit "u1"));
              (lit "_source",
               JObj [(lit "uuid", JStr (lit "u1")); (lit "title", JNull);
                     (lit "text", JNull); (lit "author", JNull);
                     (lit "published", JNull); (lit "language", JNull);
                     (lit "sentiment", JNull); (lit "categories", JNull);
                     (lit "url", JNull)])];
        JObj [(lit "_index", JStr (lit "esindex-v1.0"));
              (lit "_id", JStr (lit "u2"));
              (lit "_source",
               JObj [(lit "uuid", JStr (lit "u2")); (lit "title", JNull);
                     (lit "text", JStr (lit "hello")); (lit "author", JNull);
                     (lit "published", JNull); (lit "language", JNull);
                     (lit "sentiment", JNull); (lit "categories", JNull);
                     (lit "url", JNull)])]].
Proof.
  pose proof (@indexing_a_source
            (Inputs.three_files Inputs.both_ids_text Inputs.broken_text
                                Inputs.uuid_text_text)
            Inputs.news (Fixture.es_ok JNull) INDEX_NAME BATCH_SIZE
            (fun _ _ => eq_refl)
            (fun Hd => False_ind _ (Bool.diff_true_false Hd))
            eq_refl) as [Hn [_ Ha]].
  split.
  - refine (eq_trans Hn _). vm_compute. reflexivity.
  - refine (eq_trans Ha _). vm_compute. reflexivity.
Defined.

(* ================================================================== *)
(** ** More on the query engine and the presenter *)

(** X15.  A failed search shows as an empty one: the [None] it returns,
    like any falsy result set (an empty dict, for one), makes the
    presenter print the single line [No results found.] and stop, so a
    caller that passes the result on prints the error line and then that
    line, and nothing raises. *)
Theorem failed_search_reports_no_results (repr : value -> pystr) (es : EsClient)
    (query_text index_name : pystr) (size : Z) :
  (forall e, es_search es index_name (query_body query_text) size = inl e ->
     bind (search_boolean_es es query_text index_name size)
          (fun res => display_search_results repr res query_text)
     = ([Print (lit "Error querying Elasticsearch: " ++ exn_str e);
         Print (lit "No results found.")], inr tt)) /\
  (forall res, truthy res = false ->
     display_search_results repr res query_text
     = ([Print (lit "No results found.")], inr tt)).
Proof.
  split.
  - intros e He. unfold search_boolean_es. rewrite He. reflexivity.
  - intros res Hf. unfold display_search_results. now rewrite Hf.
Qed.

Lemma failed_search_reports_no_results_witness :
  bind (search_boolean_es Fixture.es_down (lit "storm") INDEX_NAME DEFAULT_SEARCH_SIZE)
       (fun res => display_search_results Inputs.no_repr res (lit "storm"))
  = ([Print (lit "Error querying Elasticsearch: Connection refused");
      Print (lit "No results found.")], inr tt).
Proof.
  exact (proj1 (failed_search_reports_no_results Inputs.no_repr Fixture.es_down
                  (lit "storm") INDEX_NAME DEFAULT_SEARCH_SIZE)
               Fixture.connection_error eq_refl).
Defined.

(** X16.  A hit whose source has none of the optional keys prints every
    placeholder, and an empty snippet: the defaults of the [get] calls
    apply when the key is missing. *)
Theorem missing_fields_show_placeholders (repr : value -> pystr) (i : Z)
    (hit score doc_id : value) (src : list (pystr * value)) :
  getitem hit (lit "_score") = inr score ->
  getitem hit (lit "_id") = inr doc_id ->
  getitem hit (lit "_source") = inr (JObj src) ->
  (forall f, In f shown_fields -> lookup (lit f) src = None) ->
  display_hit repr i hit
  = ([Print (lit "Result #" ++ str_of_int i);
      Print (lit "Score : " ++ py_str repr score);
      Print (lit "ID    : " ++ py_str repr doc_id);
      Print (lit "Title : (no title)");
      Print (lit "Snippet:" ++ newline);
      Print (lit "Author: (no author)");
      Print (lit "Published: (no date)");
      Print (lit "Language: (no language)");
      Print (lit "URL: (no url)");
      Print (lit "Categories: (no categories)");
      Print (rule "-" ++ newline)], inr tt).
Proof.
  intros Hsc Hid Hsrc Hnone.
  rewrite (@display_hit_steps repr i hit score doc_id src Hsc Hid Hsrc).
  unfold text_of, hit_head, hit_tail, shown.
  rewrite !Hnone by (simpl; tauto).
  reflexivity.
Qed.

Lemma missing_fields_show_placeholders_witness :
  prints (fst (display_hit Inputs.no_repr 1 MoreInputs.bare_hit))
  = [lit "Result #1"; lit "Score : 2"; lit "ID    : u9"; lit "Title : (no title)";
     lit "Snippet:" ++ newline; lit "Author: (no author)"; lit "Published: (no date)";
     lit "Language: (no language)"; lit "URL: (no url)";
     lit "Categories: (no categories)"; rule "-" ++ newline].
Proof.
  rewrite (@missing_fields_show_placeholders Inputs.no_repr 1 MoreInputs.bare_hit
             (JInt 2) (JStr (lit "u9")) [(lit "uuid", JStr (lit "u9"))]
             eq_refl eq_refl eq_refl).
  - reflexivity.
  - intros f Hf. simpl in Hf.
    repeat (destruct Hf as [<-|Hf]; [reflexivity|]). destruct Hf.
Defined.

Section PresenterShapes.

Variable repr : value -> pystr.

Lemma snippet_is_for_strings (v : value) (snip : pystr) :
  snippet v = inr snip -> exists s, v = JStr s.
Proof. destruct v; simpl; try discriminate. eauto. Qed.

(** A block that prints in full is the eleven lines of a hit with a
    score, an id, a source object and a text that is a string. *)
Lemma display_hit_shape (i : Z) (hit : value) (t : list event) :
  display_hit repr i hit = (t, inr tt) ->
  exists score doc_id src s snip,
    getitem hit (lit "_score") = inr score /\
    getitem hit (lit "_id") = inr doc_id /\
    getitem hit (lit "_source") = inr (JObj src) /\
    text_of src = JStr s /\ snippet (JStr s) = inr snip /\
    t = hit_head repr i score doc_id src ++ hit_tail repr snip src.
Proof.
  intros H.
  destruct (getitem hit (lit "_score")) as [e|score] eqn:Hsc.
  { unfold display_hit in H. rewrite Hsc in H. discriminate. }
  destruct (getitem hit (lit "_id")) as [e|doc_id] eqn:Hid.
  { unfold display_hit in H. rewrite Hsc, Hid in H. discriminate. }
  destruct (getitem hit (lit "_source")) as [e|v] eqn:Hsrc.
  { unfold display_hit, print_field in H. rewrite Hsc, Hid, Hsrc in H. discriminate. }
  destruct (isinstance_dict v) eqn:Hv.
  - destruct v as [| | | | | |src]; try discriminate.
    rewrite (@display_hit_steps repr i hit score doc_id src Hsc Hid Hsrc) in H.
    destruct (snippet (text_of src)) as [e|snip] eqn:Hsn; [discriminate|].
    destruct (snippet_is_for_strings _ Hsn) as [s Hs].
    injection H as <-. exists score, doc_id, src, s, snip.
    rewrite Hs in Hsn. repeat split; auto.
  - unfold display_hit, print_field in H. rewrite Hsc, Hid, Hsrc in H.
    destruct v; try discriminate.
Qed.

Lemma hit_lines (i : Z) (score doc_id : value) (src : list (pystr * value))
    (snip : pystr) :
  length (prints (hit_head repr i score doc_id src ++ hit_tail repr snip src)) = 11%nat /\
  nth 0 (prints (hit_head repr i score doc_id src ++ hit_tail repr snip src)) []
  = lit "Result #" ++ str_of_int i.
Proof. split; reflexivity. Qed.

(** The blocks of hits that print in full: eleven lines each, the first
    of them numbering the hit. *)
Lemma display_hits_lines (l : list value) :
  Forall (displayable repr) l ->
  forall i, exists t,
    display_hits repr i l = (t, inr tt) /\
    length (prints t) = (11 * length l)%nat /\
    forall k, (k < length l)%nat ->
      nth (11 * k) (prints t) [] = lit "Result #" ++ str_of_int (i + Z.of_nat k).
Proof.
  induction 1 as [|h l Hh _ IH]; intros i.
  - exists []. repeat split; auto. intros k Hk. simpl in Hk. lia.
  - destruct (Hh i) as [th Eh]. destruct (IH (i + 1)) as [t [Et [Hlen Hnth]]].
    destruct (display_hit_shape _ _ Eh)
      as [score [doc_id [src [s [snip [_ [_ [_ [_ [_ ->]]]]]]]]]].
    destruct (hit_lines i score doc_id src snip) as [L11 L0].
    exists ((hit_head repr i score doc_id src ++ hit_tail repr snip src) ++ t).
    cbn [display_hits]. rewrite Eh, bind_returned, Et. cbn [fst snd].
    split; [reflexivity|]. rewrite prints_app. split.
    + rewrite length_app, L11, Hlen. simpl length. lia.
    + intros [|k] Hk.
      * rewrite Z.add_0_r. rewrite app_nth1 by (rewrite L11; lia). exact L0.
      * rewrite app_nth2 by (rewrite L11; lia). rewrite L11.
        replace (11 * S k - 11)%nat with (11 * k)%nat by lia.
        rewrite Hnth by (simpl in Hk; lia).
        do 2 f_equal. lia.
Qed.

End PresenterShapes.

(** X17.  A hit's block prints in full exactly when the hit has a score,
    an id and a source object whose text is missing or a string; with
    any other text (null, a number, a list, an object) the block is cut
    by an exception. *)
Theorem displayable_iff_text_is_string (repr : value -> pystr) (hit : value) :
  displayable repr hit <->
  exists score doc_id src s,
    getitem hit (lit "_score") = inr score /\
    getitem hit (lit "_id") = inr doc_id /\
    getitem hit (lit "_source") = inr (JObj src) /\
    text_of src = JStr s.
Proof.
  split.
  - intros H. destruct (H 0) as [t Ht].
    destruct (display_hit_shape _ _ _ Ht)
      as [score [doc_id [src [s [snip [H1 [H2 [H3 [H4 _]]]]]]]]].
    exists score, doc_id, src, s. auto.
  - intros [score [doc_id [src [s [H1 [H2 [H3 H4]]]]]]] i.
    rewrite (@display_hit_steps repr i hit score doc_id src H1 H2 H3), H4.
    eexists. reflexivity.
Qed.

(** X18.  A report that prints in full makes four calls of [print] for
    the header and eleven for each hit, and the blocks are numbered from
    1 in the order of the result set: call number [4 + 11k] (from 0)
    writes [Result #k+1].  Calls are counted, not the lines they write:
    the two rules of the header, the snippet and the rule that closes a
    block each write more than one line. *)
Theorem report_prints_and_numbering (repr : value -> pystr) (query_text : pystr)
    (search_results hits total : value) (l : list value) :
  getitem search_results (lit "hits") = inr hits ->
  getitem hits (lit "hits") = inr (JArr l) ->
  total_hits search_results = inr total ->
  Forall (displayable repr) l ->
  snd (display_search_results repr search_results query_text) = inr tt /\
  length (prints (fst (display_search_results repr search_results query_text)))
  = (4 + 11 * length l)%nat /\
  forall k, (k < length l)%nat ->
    nth (4 + 11 * k)
        (prints (fst (display_search_results repr search_results query_text))) []
    = lit "Result #" ++ str_of_int (1 + Z.of_nat k).
Proof.
  intros Hh Hl Ht Hall.
  rewrite (@display_steps repr search_results query_text (@getitem_truthy _ _ _ Hh)).
  rewrite Ht, (@hits_report_steps repr search_results hits l Hh Hl).
  destruct (@display_hits_lines repr l Hall 1) as [t [-> [Hlen Hnth]]].
  cbn [fst snd]. split; [reflexivity|].
  rewrite prints_app.
  assert (H4 : length (prints (header repr total query_text)) = 4%nat) by reflexivity.
  split.
  - rewrite length_app, H4, Hlen. reflexivity.
  - intros k Hk. rewrite app_nth2 by (rewrite H4; lia). rewrite H4.
    replace (4 + 11 * k - 4)%nat with (11 * k)%nat by lia. now apply Hnth.
Qed.

Lemma report_prints_and_numbering_witness :
  nth (4 + 11 * 1)
      (prints (fst (display_search_results Inputs.no_repr
         (Inputs.result_set (JInt 2) [Inputs.text_hit 5; Inputs.text_hit 7])
         (lit "storm")))) []
  = lit "Result #2".
Proof.
  refine (proj2 (proj2 (@report_prints_and_numbering Inputs.no_repr (lit "storm")
            (Inputs.result_set (JInt 2) [Inputs.text_hit 5; Inputs.text_hit 7])
            _ (JInt 2) [Inputs.text_hit 5; Inputs.text_hit 7]
            eq_refl eq_refl eq_refl _)) 1%nat _).
  - apply Forall_cons; [apply text_hit_displayable|].
    apply Forall_cons; [apply text_hit_displayable | apply Forall_nil].
  - simpl. lia.
Defined.

(** X19.  A non-empty result set that lacks a key raises [KeyError]: for
    a missing ['hits'] or ['total'], or a total object without ['value'],
    before anything is printed; for a missing inner ['hits'], whichever
    form the total has, after the header with that total. *)
Theorem missing_key_raises_key_error (repr : value -> pystr) (query_text : pystr)
    (kvs : list (pystr * value)) :
  truthy (JObj kvs) = true ->
  (lookup (lit "hits") kvs = None ->
     display_search_results repr (JObj kvs) query_text
     = ([], inl (KeyError (lit "'hits'")))) /\
  (forall h, lookup (lit "hits") kvs = Some (JObj h) ->
     lookup (lit "total") h = None ->
     display_search_results repr (JObj kvs) query_text
     = ([], inl (KeyError (lit "'total'")))) /\
  (forall h d, lookup (lit "hits") kvs = Some (JObj h) ->
     lookup (lit "total") h = Some (JObj d) ->
     lookup (lit "value") d = None ->
     display_search_results repr (JObj kvs) query_text
     = ([], inl (KeyError (lit "'value'")))) /\
  (forall h total, lookup (lit "hits") kvs = Some (JObj h) ->
     total_hits (JObj kvs) = inr total ->
     lookup (lit "hits") h = None ->
     display_search_results repr (JObj kvs) query_text
     = (header repr total query_text, inl (KeyError (lit "'hits'")))) /\
  (forall h d v, lookup (lit "hits") kvs = Some (JObj h) ->
     lookup (lit "total") h = Some (JObj d) ->
     lookup (lit "value") d = Some v ->
     lookup (lit "hits") h = None ->
     display_search_results repr (JObj kvs) query_text
     = (header repr v query_text, inl (KeyError (lit "'hits'")))) /\
  (forall h total, lookup (lit "hits") kvs = Some (JObj h) ->
     lookup (lit "total") h = Some total ->
     isinstance_dict total = false ->
     lookup (lit "hits") h = None ->
     display_search_results repr (JObj kvs) query_text
     = (header repr total query_text, inl (KeyError (lit "'hits'")))).
Proof.
  intros Ht. rewrite (@display_steps repr (JObj kvs) query_text Ht).
  unfold total_hits, hits_report, getitem.
  repeat split.
  - intros ->. reflexivity.
  - intros h -> ->. reflexivity.
  - intros h d -> ->. simpl. intros ->. reflexivity.
  - intros h total -> Htot Hh. rewrite Htot. unfold bind, lift. rewrite Hh.
    reflexivity.
  - intros h d v -> -> Hv Hh. simpl. rewrite Hv. unfold bind, lift. rewrite Hh.
    reflexivity.
  - intros h total -> -> Hd Hh. rewrite Hd. unfold bind, lift. rewrite Hh.
    reflexivity.
Qed.

Lemma missing_key_raises_key_error_witness :
  display_search_results Inputs.no_repr (JObj MoreInputs.no_hits_key) (lit "storm")
  = ([], inl (KeyError (lit "'hits'")))
  /\ display_search_results Inputs.no_repr (JObj MoreInputs.no_inner_hits) (lit "storm")
     = ([Print (newline ++ rule "=");
         Print (lit "Query: storm");
         Print (lit "Total hits: 3");
         Print (rule "=" ++ newline)],
        inl (KeyError (lit "'hits'"))).
Proof.
  split.
  - exact (proj1 (@missing_key_raises_key_error Inputs.no_repr (lit "storm")
                    MoreInputs.no_hits_key eq_refl) eq_refl).
  - exact (proj1 (proj2 (proj2 (proj2
             (@missing_key_raises_key_error Inputs.no_repr (lit "storm")
                MoreInputs.no_inner_hits eq_refl))))
             [(lit "total", JObj [(lit "value", JInt 3)])] (JInt 3)
             eq_refl eq_refl eq_refl).
Defined.

(** X20.  The snippet of a string is never longer than 203 characters,
    never longer than the text by more than the three dots, and agrees
    with the text on its first 200 characters. *)
Theorem snippet_is_bounded (s : pystr) :
  exists snip,
    snippet (JStr s) = inr snip /\
    len snip <= 203 /\
    len snip <= len s + 3 /\
    firstn 200 snip = firstn 200 s.
Proof.
  unfold snippet. eexists. split; [reflexivity|].
  assert (Hf : (length (firstn 200 s) <= 200)%nat) by apply firstn_le_length.
  pose proof (length_firstn 200 s) as Hmin.
  destruct (len s >? 200) eqn:E.
  - apply Z.gtb_lt in E. unfold len in *.
    rewrite length_app. change (length ellipsis) with 3%nat.
    repeat split; try lia.
    rewrite firstn_app, firstn_firstn.
    replace (200 - length (firstn 200 s))%nat with 0%nat by lia.
    simpl. now rewrite app_nil_r.
  - rewrite Z.gtb_ltb in E. apply Z.ltb_ge in E. unfold len in *.
    rewrite app_nil_r. repeat split; try lia.
    now rewrite firstn_firstn.
Qed.

(* ================================================================== *)
(** ** Connecting *)

(** X21.  [create_es_client] returns a client only when the constructor
    returned it and its ping answered with a truthy value; the two lines
    printed are then the connecting line, with the configured address,
    and the success line. *)
Theorem client_is_returned_only_after_a_ping
    (new_client : pystr -> result EsClient) (ping : EsClient -> result value)
    (es : EsClient) (t : list event) :
  create_es_client new_client ping = (t, inr es) ->
  new_client ES_URL = inr es /\
  (exists alive, ping es = inr alive /\ truthy alive = true) /\
  t = [Print (lit "Connecting to Elasticsearch at http://127.0.0.1:9200");
       Print (check_mark ++ lit " Successfully connected to Elasticsearch")].
Proof.
  unfold create_es_client.
  destruct (new_client ES_URL) as [e|es'] eqn:Hn; [discriminate|].
  rewrite bind_lift_inr. unfold print. rewrite bind_event.
  destruct (ping es') as [e|alive] eqn:Hp; [discriminate|].
  rewrite bind_lift_inr.
  destruct (truthy alive) eqn:Ha; [|discriminate].
  intros [= <- <-]. split; [reflexivity|]. split; [eauto|reflexivity].
Qed.

Lemma client_is_returned_only_after_a_ping_witness :
  MoreInputs.connect ES_URL = inr (Fixture.es_ok JNull) /\
  (exists alive, MoreInputs.ping_true (Fixture.es_ok JNull) = inr alive
                 /\ truthy alive = true).
Proof.
  destruct (@client_is_returned_only_after_a_ping MoreInputs.connect
              MoreInputs.ping_true (Fixture.es_ok JNull) _ eq_refl) as [H1 [H2 _]].
  split; assumption.
Defined.

(** X22.  When [create_es_client] raises, either the constructor raised
    and nothing was printed, or the connecting line was printed, then
    one line with the text of the exception, and that exception is
    raised again: the one the ping raised, or, when the ping answered
    with a falsy value, [Exception('Failed to ping Elasticsearch
    server')], which the function's own handler reports before it leaves
    the function. *)
Theorem connection_failure_is_reported_and_raised
    (new_client : pystr -> result EsClient) (ping : EsClient -> result value)
    (e : exn) (t : list event) :
  create_es_client new_client ping = (t, inl e) ->
  (new_client ES_URL = inl e /\ t = []) \/
  (exists es,
     new_client ES_URL = inr es /\
     (ping es = inl e \/
      exists alive, ping es = inr alive /\ truthy alive = false /\ e = ping_failed) /\
     t = [Print (lit "Connecting to Elasticsearch at " ++ ES_URL);
          Print (cross_mark ++ lit " Error connecting to Elasticsearch: "
                 ++ exn_str e)]).
Proof.
  unfold create_es_client.
  destruct (new_client ES_URL) as [e'|es] eqn:Hn.
  { intros [= <- <-]. left. auto. }
  rewrite bind_lift_inr. unfold print. rewrite bind_event.
  destruct (ping es) as [e'|alive] eqn:Hp.
  { intros [= <- <-]. right. exists es. auto. }
  rewrite bind_lift_inr.
  destruct (truthy alive) eqn:Ha; [discriminate|].
  intros [= <- <-]. right. exists es. split; [reflexivity|].
  split; [right; exists alive; auto | reflexivity].
Qed.

Lemma connection_failure_is_reported_and_raised_witness :
  (MoreInputs.connect ES_URL = inl ping_failed /\
   [Print (lit "Connecting to Elasticsearch at http://127.0.0.1:9200");
    Print (cross_mark
           ++ lit " Error connecting to Elasticsearch: Failed to ping Elasticsearch server")]
   = []) \/
  (exists es,
     MoreInputs.connect ES_URL = inr es /\
     (MoreInputs.ping_false es = inl ping_failed \/
      exists alive, MoreInputs.ping_false es = inr alive /\ truthy alive = false
                    /\ ping_failed = ping_failed) /\
     [Print (lit "Connecting to Elasticsearch at http://127.0.0.1:9200");
      Print (cross_mark
             ++ lit " Error connecting to Elasticsearch: Failed to ping Elasticsearch server")]
     = [Print (lit "Connecting to Elasticsearch at " ++ ES_URL);
        Print (cross_mark ++ lit " Error connecting to Elasticsearch: "
               ++ exn_str ping_failed)]).
Proof.
  exact (@connection_failure_is_reported_and_raised MoreInputs.connect
           MoreInputs.ping_false ping_failed
           [Print (lit "Connecting to Elasticsearch at http://127.0.0.1:9200");
            Print (cross_mark
                   ++ lit " Error connecting to Elasticsearch: Failed to ping Elasticsearch server")]
           eq_refl).
Defined.

(* ================================================================== *)
(** ** The order of a directory walk *)

Section Lexicographic.

Variable A : Type.
Variables ltb eqb : A -> A -> bool.
Hypothesis eqb_eq : forall x y, eqb x y = true <-> x = y.
Hypothesis ltb_irrefl : forall x, ltb x x = false.
Hypothesis ltb_trans :
  forall x y z, ltb x y = true -> ltb y z = true -> ltb x z = true.
Hypothesis ltb_total : forall x y, ltb x y = false -> ltb y x = false -> x = y.

Lemma eqb_refl_of x : eqb x x = true.
Proof. now apply eqb_eq. Qed.

Lemma lex_irrefl (a : list A) : lex_ltb ltb eqb a a = false.
Proof.
  induction a as [|x a IH]; simpl; [reflexivity|].
  now rewrite ltb_irrefl, eqb_refl_of, IH.
Qed.

Lemma lex_trans (a b c : list A) :
  lex_ltb ltb eqb a b = true -> lex_ltb ltb eqb b c = true ->
  lex_ltb ltb eqb a c = true.
Proof.
  revert b c. induction a as [|x a IH]; intros [|y b] [|z c]; simpl;
    try discriminate; auto.
  intros Hab Hbc.
  apply orb_true_iff in Hab as [Hxy|Hab]; apply orb_true_iff in Hbc as [Hyz|Hbc];
    apply orb_true_iff.
  - left. eauto.
  - apply andb_true_iff in Hbc as [E _]. apply eqb_eq in E. subst z. auto.
  - apply andb_true_iff in Hab as [E _]. apply eqb_eq in E. subst y. auto.
  - apply andb_true_iff in Hab as [E1 Hab]. apply andb_true_iff in Hbc as [E2 Hbc].
    apply eqb_eq in E1. apply eqb_eq in E2. subst y z.
    right. rewrite eqb_refl_of. simpl. eauto.
Qed.

Lemma lex_total (a b : list A) :
  lex_ltb ltb eqb a b = false -> lex_ltb ltb eqb b a = false -> a = b.
Proof.
  revert b. induction a as [|x a IH]; intros [|y b]; simpl; try discriminate; auto.
  intros Hab Hba.
  apply orb_false_iff in Hab as [Hxy Hab]. apply orb_false_iff in Hba as [Hyx Hba].
  pose proof (@ltb_total x y Hxy Hyx) as E. subst y.
  rewrite eqb_refl_of in Hab, Hba. simpl in Hab, Hba.
  f_equal. auto.
Qed.

End Lexicographic.

Lemma str_ltb_lex (a b : pystr) : str_ltb a b = lex_ltb N.ltb N.eqb a b.
Proof.
  revert b. induction a as [|x a IH]; intros [|y b]; simpl; auto. now rewrite IH.
Qed.

Lemma parts_ltb_lex (a b : list pystr) : parts_ltb a b = lex_ltb str_ltb str_eqb a b.
Proof.
  revert b. induction a as [|x a IH]; intros [|y b]; simpl; auto. now rewrite IH.
Qed.

Lemma str_ltb_irrefl (a : pystr) : str_ltb a a = false.
Proof.
  rewrite str_ltb_lex. apply lex_irrefl.
  - apply N.eqb_eq.
  - apply N.ltb_irrefl.
Qed.

Lemma str_ltb_trans (a b c : pystr) :
  str_ltb a b = true -> str_ltb b c = true -> str_ltb a c = true.
Proof.
  rewrite !str_ltb_lex. apply lex_trans.
  - apply N.eqb_eq.
  - intros x y z H1 H2. apply N.ltb_lt in H1, H2. apply N.ltb_lt. lia.
Qed.

Lemma str_ltb_total (a b : pystr) :
  str_ltb a b = false -> str_ltb b a = false -> a = b.
Proof.
  rewrite !str_ltb_lex. apply lex_total.
  - apply N.eqb_eq.
  - intros x y H1 H2. apply N.ltb_ge in H1, H2. lia.
Qed.

Lemma path_ltb_irrefl (p : Path) : path_ltb p p = false.
Proof.
  unfold path_ltb. rewrite parts_ltb_lex.
  apply lex_irrefl; [apply str_eqb_eq | apply str_ltb_irrefl].
Qed.

Lemma path_ltb_trans (p q r : Path) :
  path_ltb p q = true -> path_ltb q r = true -> path_ltb p r = true.
Proof.
  unfold path_ltb. rewrite !parts_ltb_lex.
  apply lex_trans; [apply str_eqb_eq | apply str_ltb_trans].
Qed.

Lemma path_ltb_total (p q : Path) :
  path_ltb p q = false -> path_ltb q p = false -> p = q.
Proof.
  unfold path_ltb. rewrite !parts_ltb_lex. intros H1 H2.
  destruct p as [a], q as [b]. simpl in *. f_equal.
  revert H1 H2. apply lex_total; [apply str_eqb_eq | apply str_ltb_total].
Qed.

Lemma path_ltb_asym (p q : Path) : path_ltb p q = true -> path_ltb q p = false.
Proof.
  intros H. destruct (path_ltb q p) eqn:E; [|reflexivity].
  pose proof (@path_ltb_trans p q p H E) as C. now rewrite path_ltb_irrefl in C.
Qed.

(** Before-or-equal follows through a strict step. *)
Lemma path_ltb_leb_trans (p q r : Path) :
  path_ltb p q = true -> path_ltb r q = false -> path_ltb p r = true.
Proof.
  intros Hpq Hrq.
  destruct (path_ltb q r) eqn:Hqr; [eapply path_ltb_trans; eauto|].
  now rewrite (@path_ltb_total r q Hrq Hqr).
Qed.

Lemma path_leb_trans (p q r : Path) :
  path_leb p q = true -> path_leb q r = true -> path_leb p r = true.
Proof.
  unfold path_leb. rewrite !negb_true_iff. intros Hqp Hrq.
  destruct (path_ltb r p) eqn:Hrp; [|reflexivity].
  pose proof (@path_ltb_leb_trans r p q Hrp Hqp) as C. congruence.
Qed.

Lemma insert_perm (x : Path) (l : list Path) : Permutation (insert x l) (x :: l).
Proof.
  induction l as [|y l IH]; simpl; [reflexivity|].
  destruct (path_ltb y x); [|reflexivity].
  rewrite IH. apply perm_swap.
Qed.

Lemma sorted_perm (l : list Path) : Permutation (sorted l) l.
Proof.
  induction l as [|x l IH]; simpl; [reflexivity|].
  now rewrite insert_perm, IH.
Qed.

Lemma insert_sorted (x : Path) (l : list Path) :
  Sorted (fun p q => path_leb p q = true) l ->
  Sorted (fun p q => path_leb p q = true) (insert x l).
Proof.
  induction 1 as [|y l Hl IH Hd]; simpl; [repeat constructor|].
  destruct (path_ltb y x) eqn:E.
  - constructor; [exact IH|].
    destruct l as [|z l]; simpl.
    + constructor. unfold path_leb. now rewrite (@path_ltb_asym y x E).
    + destruct (path_ltb z x).
      * constructor. now inversion Hd.
      * constructor. unfold path_leb. now rewrite (@path_ltb_asym y x E).
  - constructor; [now constructor|].
    constructor. unfold path_leb. now rewrite E.
Qed.

Lemma sorted_is_sorted (l : list Path) :
  StronglySorted (fun p q => path_leb p q = true) (sorted l).
Proof.
  apply Sorted_StronglySorted.
  - intros p q r. apply path_leb_trans.
  - induction l as [|x l IH]; simpl; [constructor|]. now apply insert_sorted.
Qed.

Lemma path_leb_ltb_trans (p q r : Path) :
  path_ltb q p = false -> path_ltb q r = true -> path_ltb p r = true.
Proof.
  intros Hqp Hqr.
  destruct (path_ltb p q) eqn:Hpq; [eapply path_ltb_trans; eauto|].
  now rewrite (@path_ltb_total p q Hpq Hqp).
Qed.

(** Inserting two paths in either order gives the same list. *)
Lemma insert_comm (x y : Path) (l : list Path) :
  insert x (insert y l) = insert y (insert x l).
Proof.
  assert (Hbase : forall t, (if path_ltb y x then y :: x :: t else x :: y :: t)
                          = (if path_ltb x y then x :: y :: t else y :: x :: t)).
  { intros t. destruct (path_ltb y x) eqn:Eyx, (path_ltb x y) eqn:Exy; try reflexivity.
    - pose proof (@path_ltb_asym y x Eyx). congruence.
    - now rewrite (@path_ltb_total x y Exy Eyx). }
  induction l as [|z l IH]; simpl.
  - apply Hbase.
  - destruct (path_ltb z y) eqn:Ezy, (path_ltb z x) eqn:Ezx; simpl;
      rewrite ?Ezy, ?Ezx.
    + now rewrite IH.
    + now rewrite (@path_leb_ltb_trans x z y Ezx Ezy).
    + now rewrite (@path_leb_ltb_trans y z x Ezy Ezx).
    + apply Hbase.
Qed.

Lemma sorted_of_permutation (l l' : list Path) :
  Permutation l l' -> sorted l = sorted l'.
Proof.
  induction 1 as [|x l l' _ IH|x y l|l l' l'' _ IH1 _ IH2]; simpl.
  - reflexivity.
  - now rewrite IH.
  - apply insert_comm.
  - congruence.
Qed.

(** X23.  The files of a directory are visited each exactly once, in
    ascending order of their paths compared component by component:
    the walk is a loop over a rearrangement of the listing in which
    every path is before or equal to all that follow. *)
Theorem directory_is_walked_in_path_order (w : World) (path : Path) :
  is_dir w path = true ->
  exists order,
    iter_jsons_in_path w path = for_each order (dir_item w path) /\
    Permutation order (rglob_json w path) /\
    StronglySorted (fun p q => path_leb p q = true) order.
Proof.
  intros Hd. exists (sorted (rglob_json w path)).
  unfold iter_jsons_in_path. rewrite Hd.
  split; [reflexivity|]. split; [apply sorted_perm | apply sorted_is_sorted].
Qed.

Lemma directory_is_walked_in_path_order_witness :
  exists order,
    iter_jsons_in_path
      (MoreInputs.nested Inputs.title_only_text Inputs.uuid_text_text) Inputs.news
    = for_each order
        (dir_item (MoreInputs.nested Inputs.title_only_text Inputs.uuid_text_text)
                  Inputs.news) /\
    Permutation order [MoreInputs.news_sub_a; Inputs.news_a] /\
    StronglySorted (fun p q => path_leb p q = true) order.
Proof.
  exact (@directory_is_walked_in_path_order
           (MoreInputs.nested Inputs.title_only_text Inputs.uuid_text_text)
           Inputs.news eq_refl).
Defined.

(** X24.  The order in which the file system lists a directory does not
    matter: with the same files listed in any other order, extraction
    does exactly the same, event for event. *)
Theorem listing_order_does_not_matter (w : World) (path : Path)
    (listing : Path -> list Path) :
  Permutation (listing path) (rglob_json w path) ->
  iter_jsons_in_path (with_listing w listing) path = iter_jsons_in_path w path.
Proof.
  intros Hp. unfold iter_jsons_in_path. simpl.
  now rewrite (@sorted_of_permutation _ _ Hp).
Qed.

Lemma listing_order_does_not_matter_witness :
  iter_jsons_in_path
    (with_listing
       (Inputs.three_files Inputs.both_ids_text Inputs.broken_text Inputs.uuid_text_text)
       (fun _ => [Inputs.news_b; Inputs.news_c; Inputs.news_a]))
    Inputs.news
  = iter_jsons_in_path
      (Inputs.three_files Inputs.both_ids_text Inputs.broken_text Inputs.uuid_text_text)
      Inputs.news.
Proof.
  apply listing_order_does_not_matter.
  change (Permutation [Inputs.news_b; Inputs.news_c; Inputs.news_a]
                      [Inputs.news_c; Inputs.news_a; Inputs.news_b]).
  apply Permutation_sym.
  change (Permutation ([Inputs.news_c; Inputs.news_a] ++ [Inputs.news_b])
                      ([Inputs.news_b] ++ [Inputs.news_c; Inputs.news_a])).
  apply Permutation_app_comm.
Defined.

(* ================================================================== *)
(** ** Archives, and documents that come back as hits *)

(** X25.  In an archive that opens, exactly the members whose name ends
    in [.json], in any letter case, are read, in the order of the
    archive's listing (which is not sorted); any other member is passed
    over without a trace. *)
Theorem archive_reads_only_json_members (w : World) (path : Path)
    (members : list pystr) :
  is_dir w path = false ->
  str_eqb (lower (suffix path)) (lit ".zip") = true ->
  zip_namelist w path = inr members ->
  iter_jsons_in_path w path
  = for_each (filter (fun m => endswith (lower m) (lit ".json")) members)
             (fun m => item w (zip_candidate w path m)) /\
  (forall m, endswith (lower m) (lit ".json") = false -> zip_item w path m = ret tt) /\
  (length (yields (fst (iter_jsons_in_path w path)))
   + length (prints (fst (iter_jsons_in_path w path)))
   = length (filter (fun m => endswith (lower m) (lit ".json")) members))%nat.
Proof.
  intros Hd Hz Hn.
  assert (E : iter_jsons_in_path w path
              = for_each (filter (fun m => endswith (lower m) (lit ".json")) members)
                         (fun m => item w (zip_candidate w path m))).
  { unfold iter_jsons_in_path. rewrite Hd, Hz, Hn, bind_lift_inr.
    apply for_each_members. }
  split; [exact E|]. split.
  - intros m Hm. unfold zip_item. now rewrite Hm.
  - assert (Hs : supported w path = true) by (unfold supported; now rewrite Hd, Hz).
    pose proof (trace_outcomes w path Hs) as Hout.
    apply outcomes_count in Hout as [_ Hc]. rewrite Hc.
    unfold candidates. rewrite Hd, Hz, Hn. apply length_map.
Qed.

Lemma archive_reads_only_json_members_witness :
  iter_jsons_in_path (Inputs.mixed Inputs.uuid_text_text) Inputs.dump_zip
  = for_each (filter (fun m => endswith (lower m) (lit ".json"))
                     [lit "x/a.json"; lit "readme.txt"])
             (fun m => item (Inputs.mixed Inputs.uuid_text_text)
                            (zip_candidate (Inputs.mixed Inputs.uuid_text_text)
                                           Inputs.dump_zip m)).
Proof.
  exact (proj1 (@archive_reads_only_json_members (Inputs.mixed Inputs.uuid_text_text)
                  Inputs.dump_zip [lit "x/a.json"; lit "readme.txt"]
                  eq_refl eq_refl eq_refl)).
Defined.

(** The nine-key document of a parsed object displays in full exactly
    when the object has a ['text'] that is a string. *)
Lemma document_displays_iff (repr : value -> pystr)
    (kvs : list (pystr * value)) (score doc_id : value) :
  displayable repr (hit_of score doc_id (document_of kvs doc_id)) <->
  exists s, lookup (lit "text") kvs = Some (JStr s).
Proof.
  assert (Htext : text_of ((lit "uuid", doc_id)
                    :: map (fun f => (lit f, field_or_null kvs (lit f))) optional_fields)
                  = field_or_null kvs (lit "text")).
  { unfold text_of.
    now rewrite (@document_fields kvs doc_id "text") by (simpl; auto). }
  split.
  - intros H. destruct (H 0) as [t Ht].
    destruct (@display_hit_shape repr 0 _ t Ht)
      as [sc [id [src [s [snip [_ [_ [Hsrc [Hs _]]]]]]]]].
    change (getitem (hit_of score doc_id (document_of kvs doc_id)) (lit "_source"))
      with (@inr exn value (document_of kvs doc_id)) in Hsrc.
    unfold document_of in Hsrc. injection Hsrc as <-.
    assert (Hs' : field_or_null kvs (lit "text") = JStr s)
      by (rewrite <- Htext; exact Hs).
    unfold field_or_null in Hs'.
    destruct (lookup (lit "text") kvs) as [v|]; [|discriminate].
    subst v. eauto.
  - intros [s Hs] i.
    rewrite (@display_hit_steps repr i (hit_of score doc_id (document_of kvs doc_id))
               score doc_id
               ((lit "uuid", doc_id)
                :: map (fun f => (lit f, field_or_null kvs (lit f))) optional_fields)
               eq_refl eq_refl eq_refl).
    rewrite Htext. unfold field_or_null. rewrite Hs.
    eexists. reflexivity.
Qed.

(** X26.  When the [try] block of the extractor, run on an item that
    parses to an object, yields a pair, and the document of the pair
    comes back as the source of a hit with that id and any score, the
    presenter prints the hit's block in full exactly when the source
    item had a ['text'] that is a string: a missing text, which the
    extractor stores as [None], or any other value cuts the block. *)
Theorem extracted_document_displays_iff_text_is_string (repr : value -> pystr)
    (w : World) (read : result bytes) (fallback : pystr) (raw : bytes)
    (kvs : list (pystr * value)) (score doc_id doc : value) :
  read = inr raw ->
  json_loads w (decode w raw) = inr (JObj kvs) ->
  extract_item w read fallback = ([Yield doc_id doc], inr tt) ->
  (displayable repr (hit_of score doc_id doc) <->
   exists s, lookup (lit "text") kvs = Some (JStr s)).
Proof.
  intros Hr Hp Hy.
  rewrite extract_item_steps, Hr, Hp in Hy.
  destruct (derive_id (JObj kvs) fallback) as [e|d]; [discriminate Hy|].
  destruct (make_doc (JObj kvs) d) as [e|doc'] eqn:Hm; [discriminate Hy|].
  injection Hy as -> ->.
  rewrite make_doc_object in Hm. injection Hm as <-.
  apply document_displays_iff.
Qed.

Lemma extracted_document_displays_iff_text_is_string_witness :
  displayable Inputs.no_repr
    (hit_of (JInt 7) (JStr (lit "u2"))
       (JObj [(lit "uuid", JStr (lit "u2")); (lit "title", JNull);
              (lit "text", JStr (lit "hello")); (lit "author", JNull);
              (lit "published", JNull); (lit "language", JNull);
              (lit "sentiment", JNull); (lit "categories", JNull);
              (lit "url", JNull)]))
  /\ ~ displayable Inputs.no_repr
         (hit_of (JInt 7) (JStr (lit "u3"))
            (JObj [(lit "uuid", JStr (lit "u3")); (lit "title", JStr (lit "News"));
                   (lit "text", JNull); (lit "author", JNull);
                   (lit "published", JNull); (lit "language", JNull);
                   (lit "sentiment", JNull); (lit "categories", JNull);
                   (lit "url", JNull)])).
Proof.
  split.
  - refine (proj2 (@extracted_document_displays_iff_text_is_string Inputs.no_repr
                     (Inputs.one_file Inputs.uuid_text_text)
                     (read_file (Inputs.one_file Inputs.uuid_text_text) Inputs.news_a)
                     (dir_fallback Inputs.news Inputs.news_a)
                     (Fixture.to_bytes Inputs.uuid_text_text) Inputs.uuid_text
                     (JInt 7) (JStr (lit "u2")) _ _ _ _) _).
    + vm_compute; reflexivity.
    + vm_compute; reflexivity.
    + vm_compute; reflexivity.
    + eexists. reflexivity.
  - intros H.
    refine (match proj1 (@extracted_document_displays_iff_text_is_string Inputs.no_repr
                     (Inputs.one_file Inputs.uuid_title_text)
                     (read_file (Inputs.one_file Inputs.uuid_title_text) Inputs.news_a)
                     (dir_fallback Inputs.news Inputs.news_a)
                     (Fixture.to_bytes Inputs.uuid_title_text) Inputs.uuid_title
                     (JInt 7) (JStr (lit "u3")) _ _ _ _) H
            with ex_intro _ s Hs => _ end).
    + vm_compute; reflexivity.
    + vm_compute; reflexivity.
    + vm_compute; reflexivity.
    + discriminate Hs.
Defined.
